(** * Book catalogue pipeline (app.py): scraper, analyzer, database, search

    A shallow embedding of [BookScraper], [BookDataAnalyzer], [BookDatabase]
    and the [search] and [scrape_books] routes of [app.py], followed by the
    properties of the ingestion pipeline that are checked against it.

    Conventions of the embedding:
    - a Python [str] is the list of its code points ([pystr]); the source
      literal "£" is the one code point U+00A3 and "Â£" is U+00C2 U+00A3;
    - a Python/SQLite float is a [pyfloat]: a finite value carried as the
      exact rational it denotes, an infinity or NaN.  Rounding to binary64,
      overflow and the sign of zero are not represented;
    - the web site is a function from page numbers to responses, and the
      requests a scraper sends are recorded in a log next to its book list;
    - exceptions are values of [exn] on the left of a sum. *)

From Stdlib Require Import ZArith QArith Lia Lqa.
From Stdlib Require Import Sorting.Sorted Sorting.Permutation.
From stdpp Require Import base option list sorting gmap strings.

Set Default Proof Using "Type".
Open Scope Z_scope.

(** ** Python strings *)

Module PyStr.

(** A string is its sequence of Unicode code points. *)
Abbreviation pystr := (list N).

(** ASCII literals of the source, written as Rocq strings. *)
Definition str (s : string) : pystr :=
  (fun a => Ascii.N_of_ascii a) <$> String.list_ascii_of_string s.

Definition pound : N := 163%N.        (* U+00A3 *)
Definition a_circumflex : N := 194%N. (* U+00C2 *)

Fixpoint is_prefix (p s : pystr) : bool :=
  match p, s with
  | [], _ => true
  | _ :: _, [] => false
  | a :: p', b :: s' => if N.eqb a b then is_prefix p' s' else false
  end.

(** [needle in s] *)
Fixpoint contains (needle s : pystr) : bool :=
  is_prefix needle s ||
  match s with
  | [] => false
  | _ :: s' => contains needle s'
  end.

(** The scan of [str.replace] for a non-empty [old]: left to right, every
    match is replaced and the scan resumes after it.  [skip] counts the code
    points of the current match that are still to be passed over. *)
Fixpoint replace_scan (old new : pystr) (skip : nat) (s : pystr) : pystr :=
  match s with
  | [] => []
  | c :: r =>
      match skip with
      | S k => replace_scan old new k r
      | O =>
          if is_prefix old s
          then new ++ replace_scan old new (pred (length old)) r
          else c :: replace_scan old new O r
      end
  end.

(** [s.replace(old, new)]; an empty [old] matches between all code points. *)
Definition replace (old new s : pystr) : pystr :=
  match old with
  | [] => new ++ flat_map (fun c => c :: new) s
  | _ :: _ => replace_scan old new O s
  end.

(** [Py_UNICODE_ISSPACE]: the code points [str.strip()] removes. *)
Definition is_space (c : N) : bool :=
  ((9 <=? c) && (c <=? 13) || (28 <=? c) && (c <=? 32) ||
   (c =? 133) || (c =? 160) || (c =? 5760) ||
   (8192 <=? c) && (c <=? 8202) || (c =? 8232) || (c =? 8233) ||
   (c =? 8239) || (c =? 8287) || (c =? 12288))%N.

Fixpoint lstrip_by (sp : N -> bool) (s : pystr) : pystr :=
  match s with
  | c :: r => if sp c then lstrip_by sp r else s
  | [] => []
  end.

Definition strip_by (sp : N -> bool) (s : pystr) : pystr :=
  rev (lstrip_by sp (rev (lstrip_by sp s))).

(** [s.strip()] *)
Definition strip (s : pystr) : pystr := strip_by is_space s.

End PyStr.
Export PyStr.

(** ** Floats *)

Module PyFloat.

Inductive pyfloat : Type :=
| Fin (q : Q)
| Inf (negative : bool)
| NaN.

(** The value [m * 10^e], in lowest terms. *)
Definition dec_value (m e : Z) : Q :=
  if 0 <=? e then inject_Z (m * 10 ^ e)
  else Qred (Qmake m (Z.to_pos (10 ^ (- e)))).

Definition is_digit (c : N) : bool := ((48 <=? c) && (c <=? 57))%N.

Definition digit_val (c : N) : Z := Z.of_N c - 48.

Definition digits_val (ds : pystr) : Z :=
  fold_left (fun acc c => 10 * acc + digit_val c) ds 0.

Fixpoint span_digits (s : pystr) : pystr * pystr :=
  match s with
  | c :: r =>
      if is_digit c then let '(ds, t) := span_digits r in (c :: ds, t)
      else ([], s)
  | [] => ([], [])
  end.

(** An optional sign; [true] is minus. *)
Definition take_sign (s : pystr) : bool * pystr :=
  match s with
  | 43%N :: r => (false, r)
  | 45%N :: r => (true, r)
  | _ => (false, s)
  end.

Definition lower (c : N) : N :=
  if ((65 <=? c) && (c <=? 90))%N then (c + 32)%N else c.

(** [_Py_parse_inf_or_nan]: sign, then "inf", "infinity" or "nan" in any
    letter case, and nothing after it. *)
Definition parse_inf_or_nan (s : pystr) : option pyfloat :=
  let '(neg, r) := take_sign s in
  let w := lower <$> r in
  if bool_decide (w = str "inf") || bool_decide (w = str "infinity")
  then Some (Inf neg)
  else if bool_decide (w = str "nan") then Some NaN
  else None.

(** The exponent part: nothing, or [e]/[E], a sign and at least one digit,
    up to the end of the text. *)
Definition parse_exponent (s : pystr) : option Z :=
  match s with
  | [] => Some 0
  | c :: r =>
      if ((c =? 101) || (c =? 69))%N then
        let '(neg, r1) := take_sign r in
        match span_digits r1 with
        | ((_ :: _) as ds, []) =>
            Some (if neg : bool then - digits_val ds else digits_val ds)
        | _ => None
        end
      else None
  end.

(** A decimal literal: sign, digits with an optional point (at least one
    digit in all), optional exponent. *)
Definition parse_decimal (s : pystr) : option pyfloat :=
  let '(neg, r0) := take_sign s in
  let '(ip, r1) := span_digits r0 in
  let '(fp, r2) :=
    match r1 with
    | 46%N :: r => span_digits r
    | _ => ([], r1)
    end in
  match ip ++ fp with
  | [] => None
  | _ :: _ =>
      e ← parse_exponent r2;
      let m := digits_val (ip ++ fp) in
      Some (Fin (dec_value (if neg then - m else m) (e - Z.of_nat (length fp))))
  end.

(** Underscores may only stand between two digits. *)
Fixpoint underscores_ok (prev : N) (s : pystr) : bool :=
  match s with
  | [] => negb (prev =? 95)%N
  | c :: r =>
      (if (c =? 95)%N then is_digit prev
       else negb (prev =? 95)%N || is_digit c)
      && underscores_ok c r
  end.

(** The blanks [float()] removes around the literal: the ASCII ones, and the
    Unicode spaces above U+007E. *)
Definition is_float_space (c : N) : bool :=
  ((9 <=? c) && (c <=? 13) || (c =? 32) || (127 <=? c) && is_space c)%N.

(** [float(s)] for a string whose digits are ASCII; [None] is [ValueError].
    (The non-ASCII decimal digits that [float()] also reads are rejected
    here.) *)
Definition py_float (s : pystr) : option pyfloat :=
  let t := strip_by is_float_space s in
  if underscores_ok 0%N t then
    let u := filter (fun c => c ≠ 95%N) t in
    match parse_inf_or_nan u with
    | Some v => Some v
    | None => parse_decimal u
    end
  else None.

End PyFloat.
Export PyFloat.

(** ** BookScraper *)

Module Scraper.

(** The dict appended to [self.books] for one catalogue entry. *)
Record RawBook : Type := {
  title : pystr;
  price : pystr;
  availability : pystr;
  rating : pystr;
  url : pystr
}.

(** One [article.product_pod] element, given by what the loop of
    [scrape_books_from_page] reads from it.  (An element lacking one of these
    sub-elements makes the source raise; such markup is not representable.) *)
Record pod : Type := {
  pod_title : pystr;         (* book.h3.a["title"] *)
  pod_price : pystr;         (* text of p.price_color *)
  pod_availability : pystr;  (* text of p.availability, before strip() *)
  pod_rating : pystr;        (* second class of p.star-rating *)
  pod_href : pystr           (* book.h3.a["href"] *)
}.

(** What [fetch_webpage] obtains for a page: [Failed] when the status is not
    200 or the request raises (it returns None), [Body pods] for a status-200
    text in which [select("article.product_pod")] finds [pods].  An empty
    text is [Body []]. *)
Inductive response : Type :=
| Failed
| Body (pods : list pod).

(** The catalogue, by page number: the URL requested for page [i] is
    base_url + "catalogue/page-i.html". *)
Definition website : Type := Z -> response.

(** [self.books], and the log of the page requests sent so far. *)
Record BookScraper : Type := {
  books : list RawBook;
  requests : list Z
}.

(** [BookScraper()] *)
Definition new_scraper : BookScraper := {| books := []; requests := [] |}.

Definition base_url : pystr := str "http://books.toscrape.com/".

Definition fetch_webpage (site : website) (page_num : Z) (self : BookScraper)
  : response * BookScraper :=
  (site page_num,
   {| books := books self; requests := requests self ++ [page_num] |}).

(** The body of the loop over the containers of one page. *)
Definition book_of_pod (book : pod) : RawBook :=
  let href := pod_href book in
  let href :=
    if contains (str "catalogue/") href then href
    else str "catalogue/" ++ href in
  {| title := pod_title book;
     price := pod_price book;
     availability := strip (pod_availability book);
     rating := pod_rating book;
     url := base_url ++ href |}.

Definition scrape_books_from_page (site : website) (page_num : Z)
    (self : BookScraper) : bool * BookScraper :=
  let '(html, self) := fetch_webpage site page_num self in
  match html with
  | Failed => (false, self)
  | Body [] => (false, self)
  | Body container =>
      (true,
       {| books := books self ++ (book_of_pod <$> container);
          requests := requests self |})
  end.

(** [for i in range(i0, i0 + todo): if not scrape_books_from_page(i): break] *)
Fixpoint pages_loop (site : website) (i : Z) (todo : nat)
    (self : BookScraper) : BookScraper :=
  match todo with
  | O => self
  | S todo' =>
      let '(ok, self) := scrape_books_from_page site i self in
      if ok then pages_loop site (i + 1) todo' self else self
  end.

(** Returns [self.books] itself, next to the updated scraper. *)
Definition scrape_multiple_pages (site : website) (num_pages : Z)
    (self : BookScraper) : list RawBook * BookScraper :=
  let self := pages_loop site 1 (Z.to_nat num_pages) self in
  (books self, self).

(** The records one page contributes: none when its fetch fails. *)
Definition page_records (site : website) (i : Z) : list RawBook :=
  match site i with
  | Failed => []
  | Body pods => book_of_pod <$> pods
  end.

(** A page at which the loop stops: its fetch fails, or no record is
    extracted from it. *)
Definition stops (site : website) (i : Z) : Prop :=
  site i = Failed ∨ site i = Body [].

(** The records of pages [1..k], in page order then in-page order. *)
Definition records_upto (site : website) (k : Z) : list RawBook :=
  concat (page_records site <$> seqZ 1 k).

End Scraper.
Export Scraper.

(** ** Float arithmetic and comparisons *)

Module FloatOps.

Definition is_nan (x : pyfloat) : bool :=
  match x with NaN => true | _ => false end.

(** [x <= y]; false as soon as one side is NaN. *)
Definition float_leb (x y : pyfloat) : bool :=
  match x, y with
  | NaN, _ | _, NaN => false
  | Inf true, _ => true
  | _, Inf false => true
  | Fin a, Fin b => Qle_bool a b
  | _, _ => false
  end.

Definition float_add (x y : pyfloat) : pyfloat :=
  match x, y with
  | NaN, _ | _, NaN => NaN
  | Fin a, Fin b => Fin (Qred (a + b))
  | Inf s, Fin _ | Fin _, Inf s => Inf s
  | Inf s, Inf t => if Bool.eqb s t then Inf s else NaN
  end.

(** Division by a positive count. *)
Definition float_div_count (x : pyfloat) (n : nat) : pyfloat :=
  match x with
  | Fin a => Fin (Qred (a / inject_Z (Z.of_nat n)))
  | _ => x
  end.

Definition float_min (x y : pyfloat) : pyfloat := if float_leb x y then x else y.
Definition float_max (x y : pyfloat) : pyfloat := if float_leb x y then y else x.

(** pandas reductions skip NaN; over no value at all they give NaN. *)
Definition dropna (col : list pyfloat) : list pyfloat :=
  filter (fun x => is_nan x = false) col.

Definition reduce (f : pyfloat -> pyfloat -> pyfloat) (col : list pyfloat)
  : pyfloat :=
  match dropna col with
  | [] => NaN
  | x :: xs => fold_left f xs x
  end.

Definition series_mean (col : list pyfloat) : pyfloat :=
  float_div_count (reduce float_add col) (length (dropna col)).

Definition series_min (col : list pyfloat) : pyfloat := reduce float_min col.
Definition series_max (col : list pyfloat) : pyfloat := reduce float_max col.

(** The order of [sort_values]: ascending, NaN last. *)
Definition sort_leb (x y : pyfloat) : bool :=
  match x, y with
  | _, NaN => true
  | NaN, _ => false
  | _, _ => float_leb x y
  end.

End FloatOps.
Export FloatOps.

(** ** Sorting *)

Module StableSort.
Section Sort.
Context {A : Type} (leb : A -> A -> bool).

Fixpoint insert_sorted (x : A) (l : list A) : list A :=
  match l with
  | [] => [x]
  | y :: l' => if leb x y then x :: l else y :: insert_sorted x l'
  end.

(** A stable sort: elements that compare equal keep their order. *)
Definition stable_sort (l : list A) : list A := foldr insert_sorted [] l.
End Sort.
End StableSort.
Export StableSort.

(** ** BookDataAnalyzer *)

Module Analyzer.

Inductive exn : Type :=
| ValueError       (* astype(float) on a text that is no number *)
| IntegrityError.  (* a NOT NULL column given NULL *)

(** A row of [self.df] after [_preprocess]: the scraped columns and the two
    computed ones.  A missing rating (NaN) is [None]. *)
Record Row : Type := {
  raw : RawBook;
  price_numeric : pyfloat;
  rating_numeric : option Z
}.

(** The frame is its sequence of rows; [pd.DataFrame()] is the empty one. *)
Abbreviation DataFrame := (list Row).

(** [rm = {"One": 1, "Two": 2, "Three": 3, "Four": 4, "Five": 5}] *)
Definition rm : gmap pystr Z :=
  {[ str "One" := 1; str "Two" := 2; str "Three" := 3;
     str "Four" := 4; str "Five" := 5 ]}.

(** The pairs of the rating vocabulary. *)
Definition vocabulary : list (pystr * Z) :=
  [(str "One", 1); (str "Two", 2); (str "Three", 3);
   (str "Four", 4); (str "Five", 5)].

(** [.str.replace("Â£", "").str.replace("£", "")] on one text *)
Definition strip_currency (p : pystr) : pystr :=
  replace [pound] [] (replace [a_circumflex; pound] [] p).

Section Preprocess.
(** The conversion [float(text)] applied by [astype(float)]. *)
Variable to_float : pystr -> option pyfloat.

(** [.astype(float)] converts the whole column or raises. *)
Definition astype_float (col : list pystr) : exn + list pyfloat :=
  match mapM to_float col with
  | Some values => inr values
  | None => inl ValueError
  end.

(** The value [_preprocess] computes for one price text. *)
Definition price_of_text (p : pystr) : option pyfloat :=
  to_float (strip_currency p).

Definition _preprocess (df : list RawBook) : exn + DataFrame :=
  match astype_float (strip_currency <$> (price <$> df)) with
  | inl e => inl e
  | inr prices =>
      let ratings := (fun tok => rm !! tok) <$> (rating <$> df) in
      inr (zip_with (fun b pr =>
                       {| raw := b; price_numeric := pr.1;
                          rating_numeric := pr.2 |})
                    df (zip prices ratings))
  end.

(** [BookDataAnalyzer(books_data=...)]: [self.df], or the exception that
    leaves the constructor.  (The [json_file] branch reads a file and is
    not part of the embedding.) *)
Definition BookDataAnalyzer (books_data : list RawBook) : exn + DataFrame :=
  match books_data with
  | [] => inr []
  | _ :: _ => _preprocess books_data
  end.
End Preprocess.

Definition is_empty (df : DataFrame) : bool :=
  match df with [] => true | _ => false end.

(** A value of the dict [get_summary_stats] returns. *)
Inductive stat : Type :=
| Count (n : nat)
| Number (x : pyfloat).

Definition rating_as_float (r : option Z) : pyfloat :=
  match r with
  | Some k => Fin (inject_Z k)
  | None => NaN
  end.

Definition get_summary_stats (df : DataFrame) : gmap string stat :=
  if is_empty df then {[ "total_books" := Count 0 ]}
  else
    {[ "total_books" := Count (length df);
       "avg_price" := Number (series_mean (price_numeric <$> df));
       "min_price" := Number (series_min (price_numeric <$> df));
       "max_price" := Number (series_max (price_numeric <$> df));
       "avg_rating" :=
         Number (series_mean (rating_as_float <$> (rating_numeric <$> df))) ]}.

(** [rating_numeric >= min_rating]; false on a missing rating. *)
Definition rating_ge (min_rating : Z) (r : Row) : bool :=
  match rating_numeric r with
  | Some k => min_rating <=? k
  | None => false
  end.

(** [df.head(n)]: the first [n] rows, or all but the last [-n] for [n < 0]. *)
Definition head {A : Type} (n : Z) (l : list A) : list A :=
  if 0 <=? n then take (Z.to_nat n) l
  else take (length l - Z.to_nat (- n)) l.

(** [sort_values("price_numeric")].  The source leaves the order of rows of
    equal price to pandas' default sort; here they keep their order. *)
Definition sort_values (df : DataFrame) : DataFrame :=
  stable_sort (fun a b => sort_leb (price_numeric a) (price_numeric b)) df.

Definition get_best_value_book (min_rating n : Z) (df : DataFrame)
  : DataFrame :=
  if is_empty df then []
  else
    let filt := filter (fun r => rating_ge min_rating r = true) df in
    head n (sort_values filt).

End Analyzer.
Export Analyzer.

(** ** BookDatabase *)

Module Database.

(** A row of the table [books].  [price] is REAL NOT NULL and [rating] is
    INTEGER NOT NULL; the text columns always receive strings. *)
Record StoredRecord : Type := {
  id : Z;
  s_title : pystr;
  s_price : pyfloat;
  s_rating : Z;
  s_availability : pystr;
  s_url : pystr
}.

(** The table in rowid order, and the AUTOINCREMENT counter (the largest id
    handed out so far). *)
Record BookDatabase : Type := {
  table : list StoredRecord;
  sequence : Z
}.

(** [BookDatabase()]: the old file is removed and the table created anew. *)
Definition new_database : BookDatabase := {| table := []; sequence := 0 |}.

(** The INSERT statement of [insert_books] for one row.  SQLite binds a NaN
    as NULL, which the NOT NULL columns refuse; a refused statement changes
    nothing. *)
Definition execute_insert (row : Row) (db : BookDatabase)
  : exn + BookDatabase :=
  match price_numeric row, rating_numeric row with
  | NaN, _ => inl IntegrityError
  | _, None => inl IntegrityError
  | p, Some r =>
      let i := sequence db + 1 in
      inr {| table :=
               table db ++
               [ {| id := i;
                    s_title := title (raw row);
                    s_price := p;
                    s_rating := r;
                    s_availability := availability (raw row);
                    s_url := url (raw row) |} ];
             sequence := i |}
  end.

(** One turn of the loop [for _, row in df.iterrows()], on the pair of the
    database and [count]; [existing] is the set read before the loop. *)
Definition insert_row (existing : gset pystr) (acc : BookDatabase * nat)
    (row : Row) : BookDatabase * nat :=
  let '(db, count) := acc in
  if decide (title (raw row) ∈ existing) then (db, count)
  else
    match execute_insert row db with
    | inr db' => (db', S count)
    | inl _ => (db, count)           (* except Exception: print(...) *)
    end.

(** [insert_books(df)]: the database afterwards, and the number printed in
    "Inserted ... new books." ([None] when the function returns early and
    prints nothing). *)
Definition insert_books (df : DataFrame) (db : BookDatabase)
  : BookDatabase * option nat :=
  if is_empty df then (db, None)
  else
    let existing : gset pystr := list_to_set (s_title <$> table db) in
    let '(db', count) := fold_left (insert_row existing) df (db, O) in
    (db', Some count).

(** The number of rows a call inserted. *)
Definition inserted (report : option nat) : nat := default O report.

Definition get_book_by_id (book_id : Z) (db : BookDatabase)
  : option StoredRecord :=
  snd <$> list_find (fun r => id r = book_id) (table db).







(** The databases built from a new one by calls of [insert_books]. *)
Inductive reachable : BookDatabase -> Prop :=
| reach_new : reachable new_database
| reach_insert db df :
    reachable db -> reachable (insert_books df db).1.

End Database.
Export Database.

(** ** The /scrape route *)

Module App.

(** The module-level [db] and [analyzer] (None before the first scrape). *)
Record state : Type := {
  db : BookDatabase;
  analyzer : option DataFrame
}.

Definition start : state := {| db := new_database; analyzer := None |}.

(** [scrape_books()]: a fresh scraper reads one page, the analyzer is
    rebuilt from its books and its frame is given to [insert_books].  The
    result carries the number of books flashed to the user.  (Writing the
    JSON file is not part of the embedding.) *)
Definition scrape_books (site : website) (st : state) : exn + (state * nat) :=
  let '(books, _) := scrape_multiple_pages site 1 new_scraper in
  match BookDataAnalyzer py_float books with
  | inl e => inl e
  | inr df =>
      inr ({| db := (insert_books df (db st)).1; analyzer := Some df |},
           length books)
  end.

End App.
Export App.

(** ** Price texts with currency glyphs *)

Module Glyphs.

(** A price text seen as a sequence of pieces: an ordinary code point, the
    glyph "£", or its double-encoded form "Â£". *)
Inductive piece : Type :=
| Chr (c : N)
| Pound
| Mojibake.

Definition render_piece (p : piece) : pystr :=
  match p with
  | Chr c => [c]
  | Pound => [pound]
  | Mojibake => [a_circumflex; pound]
  end.

(** The text as scraped. *)
Definition render (ps : list piece) : pystr := ps ≫= render_piece.

(** Its glyph-free form: the ordinary code points alone. *)
Definition glyph_free_form (ps : list piece) : pystr :=
  ps ≫= (fun p => match p with Chr c => [c] | _ => [] end).

(** An ordinary code point is neither U+00A3 nor U+00C2. *)
Definition ordinary (p : piece) : Prop :=
  match p with
  | Chr c => c ≠ pound ∧ c ≠ a_circumflex
  | _ => True
  end.

End Glyphs.
Export Glyphs.

(** ** What a batch leaves in the table *)

Module Batch.

(** The rows the INSERT statement accepts. *)
Definition insertable (row : Row) : bool :=
  negb (is_nan (price_numeric row)) && bool_decide (is_Some (rating_numeric row)).

(** The rows of a frame that one call of [insert_books] inserts, given the
    titles read at its start. *)
Definition accepted (existing : gset pystr) (df : DataFrame) : DataFrame :=
  filter (fun row => (title (raw row) ∉ existing) ∧ insertable row = true) df.

(** The table row an accepted frame row becomes under the id [i]. *)
Definition stored (i : Z) (row : Row) : StoredRecord :=
  {| id := i;
     s_title := title (raw row);
     s_price := price_numeric row;
     s_rating := default 0 (rating_numeric row);
     s_availability := availability (raw row);
     s_url := url (raw row) |}.

(** Rows numbered with the ids that follow [last]. *)
Fixpoint numbered (last : Z) (rows : DataFrame) : list StoredRecord :=
  match rows with
  | [] => []
  | row :: rows' => stored (last + 1) row :: numbered (last + 1) rows'
  end.

(** The titles of a table. *)
Definition titles (db : BookDatabase) : list pystr := s_title <$> table db.

End Batch.
Export Batch.

(** ** Orders on results *)

Module Orders.

(** What a stable sort by [leb] makes of a list laid out along [before]:
    [x] stands before [y] when it may by [leb], and when [y] may as well
    stand before [x] the two are in their earlier order. *)
Definition sorted_keeping {A : Type} (leb : A -> A -> bool)
    (before : A -> A -> Prop) (x y : A) : Prop :=
  leb x y = true ∧ (leb y x = true → before x y).


(** Price ascending, rows without a price last. *)
Definition cheaper_or_equal (a b : Row) : Prop :=
  sort_leb (price_numeric a) (price_numeric b) = true.

End Orders.
Export Orders.

(** ** Sample data *)

Module Samples.

Definition book (t p r : string) : RawBook :=
  {| title := str t;
     price := str p;
     availability := str "In stock";
     rating := str r;
     url := base_url ++ str "catalogue/" ++ str t |}.

Definition row (t p r : string) (price : Q) (stars : Z) : Row :=
  {| raw := book t p r; price_numeric := Fin price;
     rating_numeric := Some stars |}.

(** A: rating 5, price 15; B: rating 3, price 10; C: rating 4, price 18. *)
Definition row_A : Row := row "A" "15" "Five" 15 5.
Definition row_B : Row := row "B" "10" "Three" 10 3.
Definition row_C : Row := row "C" "18" "Four" 18 4.

Definition frame_ABC : DataFrame := [row_A; row_B; row_C].

Definition store_ABC : BookDatabase := (insert_books frame_ABC new_database).1.

(** The price texts of the examples. *)
Definition text_pound : pystr := pound :: str "51.77".
Definition text_mojibake : pystr := a_circumflex :: pound :: str "51.77".
Definition text_plain : pystr := str "51.77".

(** A book whose rating token is not in the vocabulary (lower case). *)
Definition book_lowercase : RawBook :=
  {| title := str "A"; price := text_pound; availability := str "In stock";
     rating := str "five"; url := base_url ++ str "catalogue/a" |}.

(** A book with a valid price and one whose price is no number. *)
Definition book_good : RawBook :=
  {| title := str "G"; price := text_pound; availability := str "In stock";
     rating := str "Three"; url := base_url ++ str "catalogue/g" |}.

Definition book_bad : RawBook :=
  {| title := str "H"; price := pound :: str "abc";
     availability := str "In stock";
     rating := str "Four"; url := base_url ++ str "catalogue/h" |}.

(** Two different entries under one title. *)
Definition row_A_again : Row := row "A" "12" "Four" 12 4.

Definition pod_of (b : RawBook) (href : string) : pod :=
  {| pod_title := title b; pod_price := price b;
     pod_availability := str "   In stock   ";
     pod_rating := rating b; pod_href := str href |}.

(** A site of two pages with books, an empty third page and a fourth page
    that has a book again. *)
Definition site_three_pages : website := fun i =>
  if i =? 1 then Body [pod_of (book "A" "15" "Five") "a"; pod_of (book "B" "10" "Three") "b"]
  else if i =? 2 then Body [pod_of (book "C" "18" "Four") "catalogue/c"]
  else if i =? 3 then Body []
  else if i =? 4 then Body [pod_of (book "D" "20" "One") "d"]
  else Failed.

(** A site whose first page carries [book_lowercase]. *)
Definition site_lowercase : website := fun i =>
  if i =? 1 then Body [pod_of book_lowercase "a"] else Failed.

End Samples.
Export Samples.

(** ** The /books/<id> and /raw routes *)

Module Routes.


(** The value [raw_data] stores under "price_clean" for one dict [b] of the
    JSON list; [b.get("price")] is [None] when the key is absent or null. *)
Definition price_clean (b_price : option pystr) : pystr :=
  match b_price with
  | Some ((_ :: _) as p) => replace [a_circumflex] [] p
  | _ => []
  end.

End Routes.
Export Routes.

(** ** The WHERE clause on result rows *)

Module Results.


End Results.
Export Results.

(** * Properties *)

(** ** Strings and currency glyphs *)

Lemma replace_scan_single c s :
  replace_scan [c] [] 0 s = filter (fun x => x ≠ c) s.
Proof.
  induction s as [|x s IH]; [done|].
  cbn [replace_scan is_prefix length pred app].
  rewrite filter_cons. destruct (N.eqb_spec c x) as [->|Hne].
  - rewrite decide_False by naive_solver. exact IH.
  - rewrite decide_True by congruence. by rewrite IH.
Qed.

Lemma replace_scan_absent a b new s :
  b ∉ s → replace_scan [a; b] new 0 s = s.
Proof.
  induction s as [|x s IH]; [done|]. intros Hb.
  apply not_elem_of_cons in Hb as [Hx Hs].
  cbn [replace_scan is_prefix].
  destruct (N.eqb_spec a x) as [->|_]; [|by rewrite IH].
  destruct s as [|y s]; [done|].
  apply not_elem_of_cons in Hs as [Hy Hs'].
  destruct (N.eqb_spec b y) as [->|_]; [done|].
  rewrite IH; [done|]. by apply not_elem_of_cons.
Qed.

Lemma strip_currency_glyph_free s : pound ∉ strip_currency s.
Proof.
  unfold strip_currency, replace. rewrite replace_scan_single.
  intros [H _]%list_elem_of_filter. done.
Qed.

Lemma strip_currency_id s : pound ∉ s → strip_currency s = s.
Proof.
  intros H. unfold strip_currency, replace.
  rewrite replace_scan_absent by done. rewrite replace_scan_single.
  induction s as [|x s IH]; [done|].
  apply not_elem_of_cons in H as [Hx Hs].
  rewrite filter_cons, decide_True by congruence. by rewrite IH.
Qed.

Lemma strip_currency_idem s : strip_currency (strip_currency s) = strip_currency s.
Proof. apply strip_currency_id, strip_currency_glyph_free. Qed.

Lemma strip_currency_pound s : strip_currency (pound :: s) = strip_currency s.
Proof.
  unfold strip_currency, replace. rewrite !replace_scan_single.
  cbn [replace_scan is_prefix]. replace (a_circumflex =? pound)%N with false by done.
  by rewrite filter_cons, decide_False by naive_solver.
Qed.

Lemma strip_currency_mojibake s :
  strip_currency (a_circumflex :: pound :: s) = strip_currency s.
Proof. unfold strip_currency, replace. by rewrite !replace_scan_single. Qed.

Lemma strip_currency_chr c s :
  c ≠ pound → c ≠ a_circumflex →
  strip_currency (c :: s) = c :: strip_currency s.
Proof.
  intros Hp Ha. unfold strip_currency, replace. rewrite !replace_scan_single.
  cbn [replace_scan is_prefix].
  destruct (N.eqb_spec a_circumflex c) as [<-|_]; [done|].
  by rewrite filter_cons, decide_True by done.
Qed.

Lemma strip_currency_render ps :
  Forall ordinary ps → strip_currency (render ps) = glyph_free_form ps.
Proof.
  unfold render, glyph_free_form.
  induction 1 as [|p ps Hp _ IH]; [done|].
  destruct p as [c| |]; cbn [mbind list_bind render_piece app] in *; simpl.
  - destruct Hp. rewrite strip_currency_chr by done. by f_equal.
  - by rewrite strip_currency_pound.
  - by rewrite strip_currency_mojibake.
Qed.

(** ** The analyzer *)

Lemma rm_lookup tok n : rm !! tok = Some n ↔ (tok, n) ∈ vocabulary.
Proof.
  unfold rm, vocabulary.
  rewrite !lookup_insert_Some, lookup_singleton_Some, !elem_of_cons, elem_of_nil.
  split.
  - intros H. decompose [and or] H; subst; auto 10.
  - intros H. decompose [or] H; clear H; try done; simplify_eq; auto 20.
Qed.

Section PreprocessFacts.
Variable to_float : pystr -> option pyfloat.

Lemma preprocess_cons b df :
  _preprocess to_float (b :: df) =
  match price_of_text to_float (price b), _preprocess to_float df with
  | None, _ => inl ValueError
  | Some _, inl e => inl e
  | Some p, inr rows =>
      inr ({| raw := b; price_numeric := p;
              rating_numeric := rm !! rating b |} :: rows)
  end.
Proof.
  unfold _preprocess, astype_float, price_of_text. rewrite !fmap_cons.
  cbn [mapM]. destruct (to_float (strip_currency (price b))) as [p|]; [|done].
  cbn [mbind option_bind]. destruct (mapM _ _) as [ps|]; done.
Qed.

(** Success of [_preprocess], row by row. *)
Lemma preprocess_inr df rows :
  _preprocess to_float df = inr rows ↔
  Forall2 (fun b r =>
             raw r = b ∧
             price_of_text to_float (price b) = Some (price_numeric r) ∧
             rating_numeric r = rm !! rating b) df rows.
Proof.
  revert rows. induction df as [|b df IH]; intros rows.
  - split.
    + intros [= <-]. constructor.
    + by intros ->%Forall2_nil_inv_l.
  - rewrite preprocess_cons. split.
    + destruct (price_of_text to_float (price b)) as [p|] eqn:Hp; [|done].
      destruct (_preprocess to_float df) as [e|rows'] eqn:Hrec; [done|].
      intros [= <-]. constructor; [done|]. by apply IH.
    + intros (r & rows' & (Hraw & Hp & Hr) & Hrest & ->)%Forall2_cons_inv_l.
      apply IH in Hrest. rewrite Hp, Hrest. destruct r; simpl in *.
      by subst.
Qed.

(** Failure of [_preprocess]: one text that is no number is enough. *)
Lemma preprocess_inl df :
  (∃ b, b ∈ df ∧ price_of_text to_float (price b) = None) →
  _preprocess to_float df = inl ValueError.
Proof.
  intros (b & Hin & Hb). induction df as [|a df IH]; [by apply elem_of_nil in Hin|].
  rewrite preprocess_cons. apply elem_of_cons in Hin as [<-|Hin].
  - by rewrite Hb.
  - rewrite (IH Hin). by destruct (price_of_text to_float (price a)).
Qed.

Lemma preprocess_exn df e : _preprocess to_float df = inl e → e = ValueError.
Proof.
  unfold _preprocess, astype_float. destruct (mapM _ _); [done|]. congruence.
Qed.
End PreprocessFacts.

(** ** The database *)

Lemma execute_insert_insertable row db :
  insertable row = true →
  execute_insert row db =
  inr {| table := table db ++ [stored (sequence db + 1) row];
         sequence := sequence db + 1 |}.
Proof.
  unfold insertable, execute_insert, stored.
  destruct (price_numeric row), (rating_numeric row); simpl; try done.
  all: intros H; by apply bool_decide_eq_true, is_Some_None in H.
Qed.

Lemma execute_insert_refused row db :
  insertable row = false → execute_insert row db = inl IntegrityError.
Proof.
  unfold insertable, execute_insert.
  destruct (price_numeric row), (rating_numeric row); simpl; try done.
  all: rewrite bool_decide_eq_false; intros []; eauto.
Qed.


(** The loop of [insert_books] in closed form. *)
Lemma insert_loop existing df db count :
  fold_left (insert_row existing) df (db, count) =
  ({| table := table db ++ numbered (sequence db) (accepted existing df);
      sequence := sequence db + Z.of_nat (length (accepted existing df)) |},
   (count + length (accepted existing df))%nat).
Proof.
  revert db count. induction df as [|row df IH]; intros db count.
  - simpl. rewrite app_nil_r, Z.add_0_r, Nat.add_0_r. by destruct db.
  - cbn [fold_left]. unfold accepted in *. rewrite filter_cons.
    unfold insert_row at 2. destruct (decide (title (raw row) ∈ existing)) as [Hin|Hin].
    { rewrite decide_False by tauto. apply IH. }
    destruct (insertable row) eqn:Hins.
    + rewrite decide_True by done.
      rewrite execute_insert_insertable by done. rewrite IH. cbn.
      rewrite <- app_assoc. f_equal; [f_equal|]; first [done | lia].
    + rewrite decide_False by (intros []; done).
      rewrite execute_insert_refused by done. apply IH.
Qed.

Lemma insert_books_table df db :
  insert_books df db =
  let new := accepted (list_to_set (titles db)) df in
  ({| table := table db ++ numbered (sequence db) new;
      sequence := sequence db + Z.of_nat (length new) |},
   if is_empty df then None else Some (length new)).
Proof.
  unfold insert_books. destruct df as [|row df].
  - simpl. rewrite app_nil_r, Z.add_0_r. by destruct db.
  - cbn [is_empty]. fold (titles db). by rewrite insert_loop.
Qed.

Lemma filter_none {A} (P : A → Prop) `{!∀ x, Decision (P x)} (l : list A) :
  (∀ x, x ∈ l → ¬ P x) → filter P l = [].
Proof.
  induction l as [|x l IH]; intros Hl; [done|].
  rewrite filter_cons, decide_False by (apply Hl; left).
  apply IH. intros y Hy. apply Hl. by right.
Qed.

Lemma titles_numbered last rows :
  s_title <$> numbered last rows = (fun row => title (raw row)) <$> rows.
Proof. revert last. induction rows; intros; simpl; [done|]. by f_equal. Qed.

Lemma titles_insert_books df db :
  titles (insert_books df db).1 =
  titles db ++
  ((fun row => title (raw row)) <$> accepted (list_to_set (titles db)) df).
Proof.
  rewrite insert_books_table. unfold titles at 1. cbn [fst table].
  by rewrite fmap_app, titles_numbered.
Qed.

(** Once a batch went in, none of its rows is accepted again. *)
Lemma accepted_again df db :
  accepted (list_to_set (titles (insert_books df db).1)) df = [].
Proof.
  apply filter_none. intros row Hrow [Hnew Hins]. apply Hnew.
  rewrite elem_of_list_to_set, titles_insert_books, elem_of_app.
  destruct (decide (title (raw row) ∈ titles db)) as [?|Hold]; [by left|].
  right. apply (list_elem_of_fmap_2 (fun row => title (raw row))).
  apply list_elem_of_filter. split; [|done]. split; [|done].
  by rewrite elem_of_list_to_set.
Qed.

Lemma insert_books_nothing_new df db :
  accepted (list_to_set (titles db)) df = [] →
  insert_books df db = (db, if is_empty df then None else Some O).
Proof.
  intros H. rewrite insert_books_table, H. cbn.
  rewrite app_nil_r, Z.add_0_r. by destruct db.
Qed.

(** ** Stable sorting *)

Section StableSortFacts.
Context {A : Type} (leb : A → A → bool).
Context (D : A → Prop) (before : A → A → Prop).
Hypothesis leb_total : ∀ x y, D x → D y → leb x y = false → leb y x = true.
Hypothesis leb_trans :
  ∀ x y z, D x → D y → D z →
           leb x y = true → leb y z = true → leb x z = true.

Lemma insert_sorted_perm x l : insert_sorted leb x l ≡ₚ x :: l.
Proof.
  induction l as [|y l IH]; simpl; [done|].
  destruct (leb x y); [done|]. rewrite IH. apply Permutation_swap.
Qed.

Lemma stable_sort_perm l : stable_sort leb l ≡ₚ l.
Proof.
  induction l as [|x l IH]; simpl; [done|].
  rewrite insert_sorted_perm. by f_equiv.
Qed.

Lemma insert_sorted_keeping x l :
  D x → Forall D l → Forall (before x) l →
  StronglySorted (sorted_keeping leb before) l →
  StronglySorted (sorted_keeping leb before) (insert_sorted leb x l).
Proof using leb_total leb_trans.
  intros Hx HD Hb Hs. induction Hs as [|y l Hs IH Hy]; simpl.
  - repeat constructor.
  - apply Forall_cons in HD as [HDy HD]. apply Forall_cons in Hb as [Hby Hb].
    destruct (leb x y) eqn:Hxy.
    + constructor; [by constructor|]. constructor; [by split|].
      rewrite Forall_forall in Hy, Hb, HD |- *. intros z Hz.
      destruct (Hy z Hz) as [Hyz _]. split; [|by auto]. eauto.
    + constructor; [by auto|].
      rewrite insert_sorted_perm. constructor; [|done].
      split; [by auto|]. congruence.
Qed.

Lemma stable_sort_keeping l :
  Forall D l → StronglySorted before l →
  StronglySorted (sorted_keeping leb before) (stable_sort leb l).
Proof using leb_total leb_trans.
  intros HD Hs. induction Hs as [|x l Hs IH Hx]; simpl; [constructor|].
  apply Forall_cons in HD as [HDx HD].
  apply insert_sorted_keeping; [done| | |by auto].
  - by rewrite stable_sort_perm.
  - by rewrite stable_sort_perm.
Qed.
End StableSortFacts.

Lemma StronglySorted_trivial {A} (l : list A) :
  StronglySorted (fun _ _ => True) l.
Proof. induction l; constructor; [done|]. by apply Forall_forall. Qed.

(** ** The order of floats *)

Lemma float_leb_total x y :
  x ≠ NaN → y ≠ NaN → float_leb x y = false → float_leb y x = true.
Proof.
  destruct x as [a|[]|], y as [b|[]|]; simpl; try done. intros _ _ H.
  apply Qle_bool_iff, Qlt_le_weak, Qnot_le_lt. intros Hab.
  apply Qle_bool_iff in Hab. congruence.
Qed.

Lemma float_leb_trans x y z :
  float_leb x y = true → float_leb y z = true → float_leb x z = true.
Proof.
  destruct x as [a|[]|], y as [b|[]|], z as [c|[]|]; simpl; try done.
  rewrite !Qle_bool_iff. apply Qle_trans.
Qed.

Lemma sort_leb_total x y : sort_leb x y = false → sort_leb y x = true.
Proof.
  destruct x as [a|[]|] eqn:Ex, y as [b|[]|] eqn:Ey; simpl; try done.
  intros H. by apply (float_leb_total (Fin a) (Fin b)).
Qed.

Lemma sort_leb_trans x y z :
  sort_leb x y = true → sort_leb y z = true → sort_leb x z = true.
Proof.
  destruct x as [a|[]|], y as [b|[]|], z as [c|[]|]; simpl; try done.
  rewrite !Qle_bool_iff. apply Qle_trans.
Qed.





(** ** The table stays in rowid order *)











(** ** The scraper *)

Lemma page_records_nil site i : page_records site i = [] ↔ stops site i.
Proof.
  unfold page_records, stops. destruct (site i) as [|[|p pods]]; simpl.
  - naive_solver.
  - naive_solver.
  - split; [done|]. by intros [|].
Qed.

Lemma scrape_books_from_page_eq site i self :
  scrape_books_from_page site i self =
  (bool_decide (page_records site i ≠ []),
   {| books := books self ++ page_records site i;
      requests := requests self ++ [i] |}).
Proof.
  unfold scrape_books_from_page, fetch_webpage, page_records.
  destruct (site i) as [|[|p pods]]; simpl; by rewrite ?app_nil_r.
Qed.

(** The loop, when [k] pages give records and the next one, if it is still
    within the range, gives none. *)
Lemma pages_loop_eq site (k : nat) : ∀ (todo : nat) i self,
  (k ≤ todo)%nat →
  (∀ j : nat, (j < k)%nat → page_records site (i + Z.of_nat j) ≠ []) →
  ((k < todo)%nat → page_records site (i + Z.of_nat k) = []) →
  pages_loop site i todo self =
  {| books := books self ++ concat (page_records site <$> seqZ i (Z.of_nat k));
     requests := requests self ++ seqZ i (Z.of_nat (min (S k) todo)) |}.
Proof.
  induction k as [|k IH]; intros todo i self Hle Hgood Hstop.
  - destruct todo as [|todo]; simpl.
    { rewrite !app_nil_r. by destruct self. }
    rewrite scrape_books_from_page_eq.
    rewrite Z.add_0_r in Hstop. rewrite Hstop by lia.
    rewrite bool_decide_eq_false_2 by auto. by rewrite !app_nil_r.
  - destruct todo as [|todo]; [lia|]. cbn [pages_loop].
    rewrite scrape_books_from_page_eq.
    specialize (Hgood O ltac:(lia)) as Hfirst. rewrite Z.add_0_r in Hfirst.
    rewrite bool_decide_eq_true_2 by done.
    rewrite (IH todo (i + 1)); [|lia| |].
    + cbn [books requests].
      rewrite (seqZ_cons i (Z.of_nat (S k))) by lia.
      rewrite (seqZ_cons i (Z.of_nat (min (S (S k)) (S todo)))) by lia.
      rewrite fmap_cons. cbn [concat].
      replace (Z.pred (Z.of_nat (S k))) with (Z.of_nat k) by lia.
      replace (Z.pred (Z.of_nat (min (S (S k)) (S todo))))
        with (Z.of_nat (min (S k) todo)) by lia.
      by rewrite <- !app_assoc.
    + intros j Hj. specialize (Hgood (S j) ltac:(lia)).
      by replace (i + 1 + Z.of_nat j) with (i + Z.of_nat (S j)) by lia.
    + intros Hk. specialize (Hstop ltac:(lia)).
      by replace (i + 1 + Z.of_nat k) with (i + Z.of_nat (S k)) by lia.
Qed.

(** Such a [k] always exists: the loop ends. *)
Lemma pages_loop_stop site (todo : nat) : ∀ i,
  ∃ k : nat, (k ≤ todo)%nat ∧
    (∀ j : nat, (j < k)%nat → page_records site (i + Z.of_nat j) ≠ []) ∧
    ((k < todo)%nat → page_records site (i + Z.of_nat k) = []).
Proof.
  induction todo as [|todo IH]; intros i.
  - exists O. split_and!; [done|lia..].
  - destruct (decide (page_records site i = [])) as [Hnil|Hrec].
    + exists O. split_and!; [lia|lia|]. intros _. by rewrite Z.add_0_r.
    + destruct (IH (i + 1)) as (k & Hle & Hgood & Hstop).
      exists (S k). split_and!; [lia| |].
      * intros [|j] Hj; [by rewrite Z.add_0_r|].
        replace (i + Z.of_nat (S j)) with (i + 1 + Z.of_nat j) by lia.
        apply Hgood. lia.
      * intros Hk.
        replace (i + Z.of_nat (S k)) with (i + 1 + Z.of_nat k) by lia.
        apply Hstop. lia.
Qed.

(** What a scraper already holds is kept in front of what the loop adds. *)
Lemma pages_loop_from site todo i self :
  pages_loop site i todo self =
  {| books := books self ++ books (pages_loop site i todo new_scraper);
     requests := requests self ++ requests (pages_loop site i todo new_scraper) |}.
Proof.
  destruct (pages_loop_stop site todo i) as (k & Hle & Hgood & Hstop).
  by rewrite !(pages_loop_eq site k todo i) by done.
Qed.

Lemma preprocess_rows to_float df rows :
  _preprocess to_float df = inr rows →
  Forall (fun r =>
            price_of_text to_float (price (raw r)) = Some (price_numeric r) ∧
            rating_numeric r = rm !! rating (raw r)) rows.
Proof.
  intros H%preprocess_inr. induction H as [|b r df rows (<- & ? & ?)]; auto.
Qed.

Lemma preprocess_total to_float df :
  Forall (fun b => is_Some (price_of_text to_float (price b))) df →
  ∃ rows, _preprocess to_float df = inr rows.
Proof.
  induction 1 as [|b df [p Hp] _ [rows IH]].
  - by exists [].
  - rewrite preprocess_cons, Hp, IH. eauto.
Qed.

Lemma numbered_elem last rows s :
  s ∈ numbered last rows → ∃ i r, r ∈ rows ∧ s = stored i r.
Proof.
  revert last. induction rows as [|row rows IH]; intros last; simpl.
  - by intros ?%elem_of_nil.
  - intros [->|(i & r & ? & ->)%IH]%elem_of_cons.
    + exists (last + 1), row. split; [left|done].
    + exists i, r. split; [by right|done].
Qed.

(** * The claims *)

(** C1, amended.  The rating token is looked up as it stands in the
    five-word vocabulary One, Two, Three, Four, Five (values 1 to 5), letter
    case included.  A token outside the vocabulary is no error: as long as
    the prices of the batch are numbers, normalization succeeds and gives
    every record, in order, the rating the lookup finds, a missing rating
    for an unknown token.  Such a record goes to [insert_books] with the
    others, where its INSERT is refused; every record a batch adds to the
    table carries the vocabulary value of its token, between 1 and 5. *)
Theorem rating_lookup_and_missing_ratings
    (to_float : pystr → option pyfloat) (df : list RawBook)
    (db : BookDatabase) :
  Forall (fun b => is_Some (price_of_text to_float (price b))) df →
  (∀ tok n, rm !! tok = Some n ↔ (tok, n) ∈ vocabulary) ∧
  ∃ rows,
    _preprocess to_float df = inr rows ∧
    Forall2 (fun b r => raw r = b ∧ rating_numeric r = rm !! rating b) df rows ∧
    (∀ r, r ∈ rows → (∀ n, (rating (raw r), n) ∉ vocabulary) →
          rating_numeric r = None ∧
          ∀ db', execute_insert r db' = inl IntegrityError) ∧
    (∀ s, s ∈ table (insert_books rows db).1 →
          s ∈ table db ∨
          ∃ r, r ∈ rows ∧ s_title s = title (raw r) ∧
               (rating (raw r), s_rating s) ∈ vocabulary ∧
               1 <= s_rating s <= 5).
Proof.
  intros Hprices. split; [apply rm_lookup|].
  destruct (preprocess_total to_float df Hprices) as [rows Hrows].
  exists rows. split; [done|].
  pose proof (preprocess_rows _ _ _ Hrows) as Hall.
  rewrite Forall_forall in Hall. split_and!.
  - apply preprocess_inr in Hrows.
    eapply Forall2_impl; [exact Hrows|]. by intros b r (? & _ & ?).
  - intros r Hr Hunknown. destruct (Hall r Hr) as [_ Hrating].
    assert (rating_numeric r = None) as Hnone.
    { rewrite Hrating. destruct (rm !! rating (raw r)) as [n|] eqn:E; [|done].
      apply rm_lookup in E. by destruct (Hunknown n). }
    split; [done|]. intros db'. apply execute_insert_refused.
    unfold insertable. rewrite Hnone. apply andb_false_r.
  - intros s. rewrite insert_books_table. cbn.
    intros [?|Hs]%elem_of_app; [by left|]. right.
    apply numbered_elem in Hs as (i & r & Hr & ->).
    apply list_elem_of_filter in Hr as [[_ Hins] Hr].
    exists r. split; [done|]. split; [done|].
    destruct (Hall r Hr) as [_ Hrating]. unfold insertable in Hins.
    apply andb_true_iff in Hins as [_ [k Hk]%bool_decide_eq_true].
    cbn. rewrite Hk. cbn. rewrite Hrating in Hk. apply rm_lookup in Hk.
    split; [done|].
    unfold vocabulary in Hk. rewrite !elem_of_cons, elem_of_nil in Hk.
    decompose [or] Hk; simplify_eq; lia.
Qed.

(** A batch with a lower-case rating token, at the concrete parser. *)
Lemma rating_lookup_and_missing_ratings_witness :
  Forall (fun b => is_Some (price_of_text py_float (price b))) [book_lowercase] ∧
  ∃ rows, _preprocess py_float [book_lowercase] = inr rows.
Proof.
  assert (Forall (fun b => is_Some (price_of_text py_float (price b)))
                 [book_lowercase]) as H.
  { repeat constructor. eexists. vm_compute. reflexivity. }
  split; [exact H|].
  destruct (rating_lookup_and_missing_ratings py_float [book_lowercase]
              new_database H) as (_ & rows & Hrows & _).
  exists rows. exact Hrows.
Defined.

(** C1 as stated fails: the token "five" is outside the vocabulary, yet
    normalization raises nothing and yields the record with a missing
    rating, and the /scrape route hands that frame to the database. *)
Lemma unknown_rating_token_is_no_error :
  (∀ n, (rating book_lowercase, n) ∉ vocabulary) ∧
  _preprocess py_float [book_lowercase] =
    inr [ {| raw := book_lowercase; price_numeric := Fin 51.77;
             rating_numeric := None |} ] ∧
  scrape_books site_lowercase start =
    inr ({| db := new_database;
            analyzer :=
              Some [ {| raw := book_lowercase; price_numeric := Fin 51.77;
                        rating_numeric := None |} ] |}, 1%nat).
Proof.
  split_and!.
  - intros n Hn%rm_lookup. by vm_compute in Hn.
  - by vm_compute.
  - by vm_compute.
Qed.

(** C2, amended.  A price text whose remainder, once the currency glyphs
    are stripped, is no number makes the normalization of the whole batch
    raise ValueError: no record of the batch is normalized, the valid ones
    included, and the analyzer is not built. *)
Theorem non_numeric_price_fails_the_batch
    (to_float : pystr → option pyfloat) (df : list RawBook) (b : RawBook) :
  b ∈ df →
  price_of_text to_float (price b) = None →
  _preprocess to_float df = inl ValueError ∧
  BookDataAnalyzer to_float df = inl ValueError.
Proof.
  intros Hin Hb.
  assert (_preprocess to_float df = inl ValueError) as H.
  { apply preprocess_inl. eauto. }
  split; [done|]. destruct df; [by apply elem_of_nil in Hin|done].
Qed.

Lemma non_numeric_price_fails_the_batch_witness :
  _preprocess py_float [book_good; book_bad] = inl ValueError ∧
  BookDataAnalyzer py_float [book_good; book_bad] = inl ValueError.
Proof.
  apply (non_numeric_price_fails_the_batch py_float [book_good; book_bad]
           book_bad).
  - right. left.
  - by vm_compute.
Defined.

(** C2 as stated fails: of the two records the first has a valid price, and
    the batch gives an exception instead of that record. *)
Lemma bad_price_drops_every_record :
  price_of_text py_float (price book_good) = Some (Fin 51.77) ∧
  price_of_text py_float (price book_bad) = None ∧
  _preprocess py_float [book_good] =
    inr [ {| raw := book_good; price_numeric := Fin 51.77;
             rating_numeric := Some 3 |} ] ∧
  _preprocess py_float [book_good; book_bad] = inl ValueError ∧
  ¬ ∃ rows, BookDataAnalyzer py_float [book_good; book_bad] = inr rows.
Proof.
  split_and!; try by vm_compute.
  intros [rows H]. by vm_compute in H.
Qed.

Lemma scrape_multiple_pages_eq site num_pages (k : nat) :
  Z.of_nat k <= num_pages →
  (∀ i, 1 <= i <= Z.of_nat k → ¬ stops site i) →
  (Z.of_nat k < num_pages → stops site (Z.of_nat k + 1)) →
  scrape_multiple_pages site num_pages new_scraper =
  (records_upto site (Z.of_nat k),
   {| books := records_upto site (Z.of_nat k);
      requests := seqZ 1 (Z.min (Z.of_nat k + 1) num_pages) |}).
Proof.
  intros Hle Hgood Hstop. unfold scrape_multiple_pages, records_upto.
  rewrite (pages_loop_eq site k).
  - replace (Z.of_nat (min (S k) (Z.to_nat num_pages)))
      with (Z.min (Z.of_nat k + 1) num_pages) by lia.
    done.
  - lia.
  - intros j Hj. rewrite page_records_nil. apply Hgood. lia.
  - intros Hk. apply page_records_nil.
    replace (1 + Z.of_nat k) with (Z.of_nat k + 1) by lia. apply Hstop. lia.
Qed.

(** C3.  For [num_pages >= 1] a new scraper requests the pages 1, 2, ... in
    increasing order and stops at the first page whose fetch fails or that
    yields no record, or after [num_pages] pages: for the number [k] of
    pages before the stop, the result is the concatenation of the records
    of pages 1 to [k], page by page and in page order, and the pages
    requested are exactly 1 to [k + 1] (1 to [num_pages] when no page
    stopped the loop).  In particular, when pages 1 to [N] have records and
    page [N + 1] has none, the result is the records of pages 1 to [N] and
    page [N + 2] is never requested; and when the fetch of page 1 fails the
    result is empty. *)
Theorem scrape_multiple_pages_stops_at_first_empty_page
    (site : website) (num_pages : Z) :
  1 <= num_pages →
  let result := scrape_multiple_pages site num_pages new_scraper in
  (∃ k, 0 <= k <= num_pages ∧
        (∀ i, 1 <= i <= k → ¬ stops site i) ∧
        (k < num_pages → stops site (k + 1)) ∧
        result.1 = records_upto site k ∧
        books result.2 = records_upto site k ∧
        requests result.2 = seqZ 1 (Z.min (k + 1) num_pages)) ∧
  (∀ N, 0 <= N < num_pages →
        (∀ i, 1 <= i <= N → ¬ stops site i) →
        stops site (N + 1) →
        result.1 = records_upto site N ∧
        requests result.2 = seqZ 1 (N + 1) ∧
        N + 2 ∉ requests result.2) ∧
  (site 1 = Failed → result.1 = [] ∧ requests result.2 = [1]).
Proof.
  intros Hn result. split_and!.
  - destruct (pages_loop_stop site (Z.to_nat num_pages) 1)
      as (k & Hle & Hgood & Hstop).
    assert (∀ i, 1 <= i <= Z.of_nat k → ¬ stops site i) as Hgood'.
    { intros i Hi. rewrite <- page_records_nil.
      replace i with (1 + Z.of_nat (Z.to_nat (i - 1))) by lia.
      apply Hgood. lia. }
    assert (Z.of_nat k < num_pages → stops site (Z.of_nat k + 1)) as Hstop'.
    { intros Hk. apply page_records_nil.
      replace (Z.of_nat k + 1) with (1 + Z.of_nat k) by lia.
      apply Hstop. lia. }
    exists (Z.of_nat k). unfold result.
    rewrite (scrape_multiple_pages_eq site num_pages k) by (done || lia).
    split_and!; (done || lia).
  - intros N HN Hgood Hstop. unfold result.
    replace N with (Z.of_nat (Z.to_nat N)) in * by lia.
    rewrite (scrape_multiple_pages_eq site num_pages (Z.to_nat N))
      by (done || lia || auto).
    cbn [fst snd books requests].
    replace (Z.min _ _) with (Z.of_nat (Z.to_nat N) + 1) by lia.
    split_and!; [done..|]. rewrite elem_of_seqZ. lia.
  - intros Hfail. unfold result.
    rewrite (scrape_multiple_pages_eq site num_pages O).
    + cbn [fst snd books requests].
      replace (Z.min _ _) with 1 by lia. done.
    + lia.
    + lia.
    + intros _. by left.
Qed.

Lemma scrape_multiple_pages_stops_at_first_empty_page_witness :
  1 <= 10 ∧
  (scrape_multiple_pages site_three_pages 10 new_scraper).1 =
    records_upto site_three_pages 2 ∧
  requests (scrape_multiple_pages site_three_pages 10 new_scraper).2 =
    seqZ 1 3 ∧
  4 ∉ requests (scrape_multiple_pages site_three_pages 10 new_scraper).2.
Proof.
  split; [lia|].
  refine (proj1 (proj2 (scrape_multiple_pages_stops_at_first_empty_page
                   site_three_pages 10 _)) 2 _ _ _).
  - lia.
  - lia.
  - intros i Hi [H|H];
      (assert (i = 1 ∨ i = 2) as [->| ->] by lia); vm_compute in H; discriminate H.
  - right. reflexivity.
Defined.

(** C10.  The book list of a scraper only grows: [scrape_multiple_pages]
    keeps what the scraper already holds, appends the records of this run
    behind it, and returns the whole list of the instance.  A second call on
    the same instance therefore returns the records of the first call
    followed by the newly scraped ones. *)
Theorem scrape_multiple_pages_accumulates
    (site site' : website) (num_pages num_pages' : Z) (self : BookScraper) :
  let run := scrape_multiple_pages site num_pages self in
  let fresh := scrape_multiple_pages site num_pages new_scraper in
  run.1 = books run.2 ∧
  books run.2 = books self ++ fresh.1 ∧
  let first := scrape_multiple_pages site num_pages new_scraper in
  let second := scrape_multiple_pages site' num_pages' first.2 in
  second.1 =
    first.1 ++ (scrape_multiple_pages site' num_pages' new_scraper).1.
Proof.
  cbn zeta. unfold scrape_multiple_pages. cbn [fst snd]. split_and!.
  - done.
  - by rewrite pages_loop_from.
  - by rewrite (pages_loop_from site').
Qed.


(** C5, at the failing input: a single batch with two records under one
    title that the table has not seen.  Both are compared with the titles
    read before the loop, both are inserted, and the table of a new
    database ends with two rows of that title. *)
Theorem same_title_twice_in_one_batch :
  title (raw row_A) = title (raw row_A_again) ∧
  insert_books [row_A; row_A_again] new_database =
    ({| table := [stored 1 row_A; stored 2 row_A_again]; sequence := 2 |},
     Some 2%nat) ∧
  reachable (insert_books [row_A; row_A_again] new_database).1 ∧
  ¬ NoDup (titles (insert_books [row_A; row_A_again] new_database).1).
Proof.
  split_and!.
  - done.
  - by vm_compute.
  - apply reach_insert, reach_new.
  - intros H. apply NoDup_cons in H as [H _]. apply H. vm_compute. left.
Qed.

(** C6.  Normalization of a price text removes the currency glyph in both
    encodings, "£" and "Â£", and converts what is left: a text made of
    ordinary code points and glyphs yields the value of its glyph-free
    form, in particular a glyph in front of a glyph-free text yields the
    value of that text.  On a text that is already glyph-free it changes
    nothing, so that normalizing twice is normalizing once.  "£51.77" and
    "Â£51.77" both give 51.77, as does "51.77". *)
Theorem price_normalization_strips_glyphs
    (to_float : pystr → option pyfloat) (ps : list piece) (s : pystr) :
  Forall ordinary ps →
  pound ∉ s →
  price_of_text to_float (render ps) = to_float (glyph_free_form ps) ∧
  price_of_text to_float (pound :: s) = to_float s ∧
  price_of_text to_float (a_circumflex :: pound :: s) = to_float s ∧
  price_of_text to_float s = to_float s ∧
  strip_currency (strip_currency (render ps)) = strip_currency (render ps) ∧
  price_of_text py_float text_pound = Some (Fin 51.77) ∧
  price_of_text py_float text_mojibake = Some (Fin 51.77) ∧
  price_of_text py_float text_plain = Some (Fin 51.77).
Proof.
  intros Hps Hs. unfold price_of_text. split_and!.
  - by rewrite strip_currency_render.
  - by rewrite strip_currency_pound, strip_currency_id.
  - by rewrite strip_currency_mojibake, strip_currency_id.
  - by rewrite strip_currency_id.
  - apply strip_currency_idem.
  - by vm_compute.
  - by vm_compute.
  - by vm_compute.
Qed.

Lemma price_normalization_strips_glyphs_witness :
  price_of_text py_float
    (render [Mojibake; Chr 53; Chr 49; Pound; Chr 46; Chr 55; Chr 55]%N) =
    py_float (str "51.77") ∧
  price_of_text py_float (pound :: str "51.77") = py_float (str "51.77").
Proof.
  assert (Forall ordinary [Mojibake; Chr 53; Chr 49; Pound; Chr 46; Chr 55; Chr 55]%N) as Hps.
  { repeat constructor; vm_compute; discriminate. }
  assert (pound ∉ str "51.77") as Hs.
  { vm_compute. intros H. repeat (apply elem_of_cons in H as [H|H]; [discriminate H|]).
    by apply elem_of_nil in H. }
  destruct (price_normalization_strips_glyphs py_float _ _ Hps Hs)
    as (H1 & H2 & _).
  split; [exact H1|exact H2].
Defined.



Lemma StronglySorted_weaken {A} (R1 R2 : A → A → Prop) (l : list A) :
  (∀ x y, R1 x y → R2 x y) → StronglySorted R1 l → StronglySorted R2 l.
Proof.
  intros HR. induction 1 as [|x l Hl IH Hx]; constructor; [done|].
  eapply Forall_impl; [exact Hx|]. auto.
Qed.

Lemma sort_values_sorted df : StronglySorted cheaper_or_equal (sort_values df).
Proof.
  eapply StronglySorted_weaken;
    [|apply (stable_sort_keeping _ (fun _ => True) (fun _ _ => True))].
  - by intros a b [H _].
  - intros x y _ _. apply sort_leb_total.
  - intros x y z _ _ _. apply sort_leb_trans.
  - by apply Forall_forall.
  - apply StronglySorted_trivial.
Qed.

Lemma get_best_value_book_eq min_rating n df :
  0 <= n →
  get_best_value_book min_rating n df =
  take (Z.to_nat n)
       (sort_values (filter (fun r => rating_ge min_rating r = true) df)).
Proof.
  intros Hn. unfold get_best_value_book, head.
  destruct df; [by destruct (Z.to_nat n)|]. cbn [is_empty].
  by rewrite (proj2 (Z.leb_le 0 n)) by done.
Qed.

(** C8.  For every frame, every [min_rating] and every [n >= 0],
    [get_best_value_book] returns rows of rating >= [min_rating] in
    ascending order of price: the first [n] of the qualifying rows so
    ordered, each qualifying row left out costing at least as much as every
    row returned.  When [n] exceeds the number of qualifying rows all of
    them are returned, nothing more.  Over A (rating 5, price 15), B
    (rating 3, price 10), C (rating 4, price 18), [min_rating = 4] and
    [n = 1] return A. *)
Theorem get_best_value_book_cheapest
    (df : DataFrame) (min_rating n : Z) :
  0 <= n →
  let qualifying := filter (fun r => rating_ge min_rating r = true) df in
  let best := get_best_value_book min_rating n df in
  length best = min (Z.to_nat n) (length qualifying) ∧
  StronglySorted cheaper_or_equal best ∧
  (∀ r, r ∈ best → r ∈ df ∧ rating_ge min_rating r = true) ∧
  (∃ rest, best ++ rest ≡ₚ qualifying ∧
           ∀ a b, a ∈ best → b ∈ rest → cheaper_or_equal a b) ∧
  (Z.of_nat (length qualifying) <= n → best ≡ₚ qualifying) ∧
  get_best_value_book 4 1 frame_ABC = [row_A].
Proof.
  intros Hn qualifying best.
  assert (best = take (Z.to_nat n) (sort_values qualifying)) as Hbest
    by by apply get_best_value_book_eq.
  assert (sort_values qualifying ≡ₚ qualifying) as Hperm
    by apply stable_sort_perm.
  pose proof (sort_values_sorted qualifying) as Hsorted.
  rewrite <- (take_drop (Z.to_nat n) (sort_values qualifying)) in Hperm, Hsorted.
  rewrite <- Hbest in Hperm, Hsorted.
  apply StronglySorted_app in Hsorted as (Hcross & Hsorted & _).
  split_and!.
  - rewrite Hbest, length_take. unfold sort_values.
    by rewrite stable_sort_perm.
  - done.
  - intros r Hr.
    assert (r ∈ qualifying) as [? ?]%list_elem_of_filter; [|done].
    rewrite <- Hperm. apply elem_of_app. by left.
  - by exists (drop (Z.to_nat n) (sort_values qualifying)).
  - intros Hall. rewrite Hbest, take_ge; [apply stable_sort_perm|].
    unfold sort_values. rewrite stable_sort_perm. lia.
  - by vm_compute.
Qed.

Lemma get_best_value_book_cheapest_witness :
  0 <= 1 ∧
  length (get_best_value_book 4 1 frame_ABC) =
    min (Z.to_nat 1)
        (length (filter (fun r => rating_ge 4 r = true) frame_ABC)).
Proof.
  assert (0 <= 1) as H by lia.
  split; [exact H|].
  exact (proj1 (get_best_value_book_cheapest frame_ABC 4 1 H)).
Defined.

(** C9.  On an empty collection [get_summary_stats] returns the dict with
    the single entry total_books = 0: none of the averages, minima or
    maxima is computed, and nothing is raised.  The frame of an analyzer
    built from no books is empty in this sense. *)
Theorem get_summary_stats_of_empty_frame :
  get_summary_stats [] = {[ "total_books" := Count 0 ]} ∧
  get_summary_stats [] !! "total_books" = Some (Count 0) ∧
  dom (get_summary_stats []) = ({[ "total_books" ]} : gset string) ∧
  (∀ to_float, BookDataAnalyzer to_float [] = inr []).
Proof.
  split_and!; [done|done| |done].
  unfold get_summary_stats. cbn [is_empty]. apply dom_singleton_L.
Qed.


(** * Further properties of the code *)

(** ** Scraping one page, and runs of any length *)

(** X1.  One call of [scrape_books_from_page] sends exactly one request,
    for the page asked.  It returns False exactly when the fetch fails or
    the page has no container, and then leaves the book list as it was;
    when it returns True it has appended one record per container, in page
    order, behind the books already held. *)
Theorem scrape_books_from_page_outcome
    (site : website) (page_num : Z) (self : BookScraper) :
  let r := scrape_books_from_page site page_num self in
  requests r.2 = requests self ++ [page_num] ∧
  (r.1 = false ↔ stops site page_num) ∧
  (r.1 = false → books r.2 = books self) ∧
  (r.1 = true →
     ∃ pods, site page_num = Body pods ∧ pods ≠ [] ∧
             books r.2 = books self ++ (book_of_pod <$> pods) ∧
             length (books r.2) = (length (books self) + length pods)%nat).
Proof.
  cbn zeta. unfold scrape_books_from_page, fetch_webpage, stops.
  destruct (site page_num) as [|[|p pods]]; cbn [fst snd books requests].
  - split_and!; [done|naive_solver|done|done].
  - split_and!; [done|naive_solver|done|done].
  - split_and!; [done| |done|].
    + split; [done|]. by intros [|].
    + intros _. exists (p :: pods). split_and!; [done..|].
      by rewrite length_app, length_fmap.
Qed.

Lemma scrape_books_from_page_outcome_witness :
  (scrape_books_from_page site_three_pages 3 new_scraper).1 = false ∧
  books (scrape_books_from_page site_three_pages 3 new_scraper).2 =
    books new_scraper.
Proof.
  destruct (scrape_books_from_page_outcome site_three_pages 3 new_scraper)
    as (_ & Hstop & Hsame & _).
  assert ((scrape_books_from_page site_three_pages 3 new_scraper).1 = false)
    as H by (apply Hstop; right; reflexivity).
  split; [exact H|exact (Hsame H)].
Defined.



(** ** The fields of a scraped record *)

Lemma is_prefix_app p s : is_prefix p (p ++ s) = true.
Proof. induction p as [|a p IH]; [by destruct s|]. simpl. by rewrite N.eqb_refl. Qed.

Lemma is_prefix_spec p s : is_prefix p s = true ↔ ∃ t, s = p ++ t.
Proof.
  split.
  - revert s. induction p as [|a p IH]; intros s; [by exists s|].
    destruct s as [|b s]; [done|]. simpl.
    destruct (N.eqb_spec a b) as [->|]; [|done].
    intros [t ->]%IH. by exists t.
  - intros [t ->]. apply is_prefix_app.
Qed.

Lemma contains_prefix needle s :
  is_prefix needle s = true → contains needle s = true.
Proof. intros H. destruct s; simpl; by rewrite H. Qed.

Lemma contains_spec needle s :
  contains needle s = true ↔ ∃ l r, s = l ++ needle ++ r.
Proof.
  split.
  - induction s as [|c s IH]; simpl.
    + rewrite orb_false_r. intros [t Ht]%is_prefix_spec. by exists [], t.
    + intros [[t Ht]%is_prefix_spec|(l & r & ->)%IH]%orb_true_iff.
      * by exists [], t.
      * by exists (c :: l), r.
  - intros (l & r & ->). induction l as [|c l IH]; simpl.
    + apply contains_prefix, is_prefix_app.
    + rewrite IH. apply orb_true_r.
Qed.

(** X3.  The url of a scraped record is absolute and lies under the
    catalogue path: it starts with the base url and contains "catalogue/".
    An href that already contains "catalogue/" somewhere is appended to the
    base url as it is, any other href is prefixed with "catalogue/" first.
    Title, price text and rating token are copied unchanged. *)
Theorem book_of_pod_url (book : pod) :
  let b := book_of_pod book in
  is_prefix base_url (url b) = true ∧
  contains (str "catalogue/") (url b) = true ∧
  (contains (str "catalogue/") (pod_href book) = true →
     url b = base_url ++ pod_href book) ∧
  (contains (str "catalogue/") (pod_href book) = false →
     url b = base_url ++ str "catalogue/" ++ pod_href book) ∧
  title b = pod_title book ∧ price b = pod_price book ∧
  rating b = pod_rating book.
Proof.
  cbn zeta. unfold book_of_pod. cbn [url title price rating].
  destruct (contains (str "catalogue/") (pod_href book)) eqn:Hc.
  - split; [apply is_prefix_app|]. split; [|by split_and!].
    apply contains_spec in Hc as (l & r & ->). apply contains_spec.
    exists (base_url ++ l), r. by rewrite <- app_assoc.
  - split; [apply is_prefix_app|]. split; [|by split_and!].
    apply contains_spec. by exists base_url, (pod_href book).
Qed.

Lemma book_of_pod_url_witness :
  url (book_of_pod (pod_of (book "C" "18" "Four") "catalogue/c")) =
    base_url ++ str "catalogue/c" ∧
  url (book_of_pod (pod_of (book "A" "15" "Five") "a")) =
    base_url ++ str "catalogue/" ++ str "a".
Proof.
  split.
  - refine (proj1 (proj2 (proj2 (book_of_pod_url
              (pod_of (book "C" "18" "Four") "catalogue/c")))) _).
    vm_compute. reflexivity.
  - refine (proj1 (proj2 (proj2 (proj2 (book_of_pod_url
              (pod_of (book "A" "15" "Five") "a"))))) _).
    vm_compute. reflexivity.
Defined.

Lemma lstrip_by_spec sp s :
  ∃ l, s = l ++ lstrip_by sp s ∧ Forall (fun c => sp c = true) l ∧
       ∀ c, hd_error (lstrip_by sp s) = Some c → sp c = false.
Proof.
  induction s as [|c s (l & Hs & Hl & Hhd)]; simpl.
  - exists []. by split_and!.
  - destruct (sp c) eqn:Hc.
    + exists (c :: l). split_and!; [simpl; congruence|by constructor|done].
    + exists []. split_and!; [done|constructor|]. by intros c' [= <-].
Qed.

Lemma last_rev {A} (l : list A) : last (rev l) = hd_error l.
Proof. destruct l as [|x l]; [done|]. cbn [rev]. by rewrite last_snoc. Qed.

Lemma strip_by_spec sp s :
  ∃ l r, s = l ++ strip_by sp s ++ r ∧
         Forall (fun c => sp c = true) l ∧ Forall (fun c => sp c = true) r ∧
         (∀ c, hd_error (strip_by sp s) = Some c → sp c = false) ∧
         (∀ c, last (strip_by sp s) = Some c → sp c = false).
Proof.
  unfold strip_by.
  destruct (lstrip_by_spec sp s) as (l & Hs & Hl & Hhd).
  destruct (lstrip_by_spec sp (rev (lstrip_by sp s))) as (r & Ht & Hr & Hlast).
  set (t := lstrip_by sp s) in *. set (u := lstrip_by sp (rev t)) in *.
  assert (t = rev u ++ rev r) as Htu.
  { rewrite <- (rev_involutive t), Ht. apply rev_app_distr. }
  exists l, (rev r). split_and!.
  - by rewrite <- Htu.
  - done.
  - apply Forall_forall. intros c Hc. rewrite Forall_forall in Hr.
    apply Hr. by rewrite list_elem_of_In, in_rev, <- list_elem_of_In.
  - intros c Hc. apply Hhd. rewrite Htu.
    destruct (rev u); [done|]. exact Hc.
  - intros c Hc. apply Hlast. by rewrite last_rev in Hc.
Qed.

(** X4.  [strip()] removes exactly the blanks at both ends: the text is its
    stripped form between two runs of blanks, and the stripped form neither
    starts nor ends with a blank.  This is the availability text of every
    scraped record. *)
Theorem availability_is_stripped (book : pod) :
  let a := availability (book_of_pod book) in
  (∃ l r, pod_availability book = l ++ a ++ r ∧
          Forall (fun c => is_space c = true) l ∧
          Forall (fun c => is_space c = true) r) ∧
  (∀ c, a !! O = Some c → is_space c = false) ∧
  (∀ c, last a = Some c → is_space c = false) ∧
  strip a = a.
Proof.
  cbn zeta. unfold book_of_pod. cbn [availability]. unfold strip.
  destruct (strip_by_spec is_space (pod_availability book))
    as (l & r & Hs & Hl & Hr & Hhd & Hlast).
  set (a := strip_by is_space (pod_availability book)) in *.
  split_and!.
  - by exists l, r.
  - intros c Hc. apply Hhd. by destruct a.
  - done.
  - destruct (strip_by_spec is_space a) as (l' & r' & Hs' & Hl' & Hr' & _).
    set (a' := strip_by is_space a) in *.
    destruct l' as [|c l'].
    + destruct r' as [|c r' _] using rev_ind; [by rewrite app_nil_r in Hs'|].
      exfalso. rewrite Forall_app, Forall_singleton in Hr'. destruct Hr' as [_ Hc].
      rewrite (Hlast c) in Hc; [done|]. rewrite Hs'. cbn [app].
      by rewrite app_assoc, last_snoc.
    + exfalso. apply Forall_cons in Hl' as [Hc _].
      rewrite (Hhd c) in Hc; [done|]. by rewrite Hs'.
Qed.

Lemma availability_is_stripped_witness :
  availability (book_of_pod (pod_of (book "A" "15" "Five") "a")) !! O =
    Some 73%N ∧
  is_space 73 = false.
Proof.
  split; [reflexivity|].
  refine (proj1 (proj2 (availability_is_stripped
            (pod_of (book "A" "15" "Five") "a"))) 73%N _).
  reflexivity.
Defined.

(** ** The analyzer's frame and figures *)


(** X5.  [_preprocess] succeeds exactly when every price text of the batch
    converts to a float once the currency glyphs are stripped, and the only
    exception it raises is ValueError.  On success the frame has one row per
    record, in the order of the batch and with the scraped columns
    untouched; each row carries the converted price of its record. *)
Theorem preprocess_succeeds_iff_prices_convert
    (to_float : pystr → option pyfloat) (df : list RawBook) :
  ((∃ rows, _preprocess to_float df = inr rows) ↔
   Forall (fun b => is_Some (price_of_text to_float (price b))) df) ∧
  (∀ e, _preprocess to_float df = inl e → e = ValueError) ∧
  (∀ rows, _preprocess to_float df = inr rows →
     length rows = length df ∧
     raw <$> rows = df ∧
     (fun r => Some (price_numeric r)) <$> rows =
       (fun b => price_of_text to_float (price b)) <$> df).
Proof.
  split_and!.
  - split; [|apply preprocess_total].
    intros [rows Hrows%preprocess_inr].
    induction Hrows as [|b r df rows (_ & Hp & _) _ IH]; constructor; [|done].
    by rewrite Hp.
  - apply preprocess_exn.
  - intros rows Hrows%preprocess_inr.
    induction Hrows as [|b r df rows (Hraw & Hp & _) _ (IH1 & IH2 & IH3)];
      [done|].
    cbn. rewrite IH1, IH2, IH3, Hraw, Hp. done.
Qed.

Lemma preprocess_succeeds_iff_prices_convert_witness :
  length [ {| raw := book_good; price_numeric := Fin 51.77;
              rating_numeric := Some 3 |} ] = length [book_good].
Proof.
  refine (proj1 (proj2 (proj2 (preprocess_succeeds_iff_prices_convert
            py_float [book_good])) _ _)).
  vm_compute. reflexivity.
Defined.

Lemma float_leb_refl x : x ≠ NaN → float_leb x x = true.
Proof.
  destruct x as [a|[]|]; simpl; try done. intros _.
  apply Qle_bool_iff, Qle_refl.
Qed.

Lemma elem_of_dropna col p : p ∈ dropna col ↔ p ∈ col ∧ p ≠ NaN.
Proof.
  unfold dropna. rewrite list_elem_of_filter. destruct p; simpl; intuition done.
Qed.

(** The least of a run of prices, folded from the left. *)
Lemma fold_float_min xs : ∀ x,
  x ≠ NaN → Forall (fun v => v ≠ NaN) xs →
  let m := fold_left float_min xs x in
  m ∈ x :: xs ∧ ∀ v, v ∈ x :: xs → float_leb m v = true.
Proof.
  induction xs as [|y xs IH]; intros x Hx Hxs; cbn zeta; cbn [fold_left].
  - split; [left|]. intros v ->%list_elem_of_singleton. by apply float_leb_refl.
  - apply Forall_cons in Hxs as [Hy Hxs].
    assert (float_min x y ≠ NaN ∧ float_min x y ∈ [x; y] ∧
            float_leb (float_min x y) x = true ∧
            float_leb (float_min x y) y = true) as (Hm & Hin & Hmx & Hmy).
    { unfold float_min. destruct (float_leb x y) eqn:E.
      - split_and!; [done|left|by apply float_leb_refl|done].
      - split_and!; [done|right; left|by apply float_leb_total
                    |by apply float_leb_refl]. }
    destruct (IH (float_min x y) Hm Hxs) as [Hin' Hle]. split.
    + apply elem_of_cons in Hin' as [Heq|?]; [|by do 2 right].
      rewrite Heq.
      apply elem_of_cons in Hin as [Hm'|Hm'%list_elem_of_singleton];
        rewrite Hm'; [left|right; left].
    + intros v [->|[->|Hv]%elem_of_cons]%elem_of_cons.
      * eapply float_leb_trans; [|exact Hmx]. apply Hle. left.
      * eapply float_leb_trans; [|exact Hmy]. apply Hle. left.
      * apply Hle. by right.
Qed.

Lemma fold_float_max xs : ∀ x,
  x ≠ NaN → Forall (fun v => v ≠ NaN) xs →
  let m := fold_left float_max xs x in
  m ∈ x :: xs ∧ ∀ v, v ∈ x :: xs → float_leb v m = true.
Proof.
  induction xs as [|y xs IH]; intros x Hx Hxs; cbn zeta; cbn [fold_left].
  - split; [left|]. intros v ->%list_elem_of_singleton. by apply float_leb_refl.
  - apply Forall_cons in Hxs as [Hy Hxs].
    assert (float_max x y ≠ NaN ∧ float_max x y ∈ [x; y] ∧
            float_leb x (float_max x y) = true ∧
            float_leb y (float_max x y) = true) as (Hm & Hin & Hmx & Hmy).
    { unfold float_max. destruct (float_leb x y) eqn:E.
      - split_and!; [done|right; left|done|by apply float_leb_refl].
      - split_and!; [done|left|by apply float_leb_refl
                    |by apply float_leb_total]. }
    destruct (IH (float_max x y) Hm Hxs) as [Hin' Hle]. split.
    + apply elem_of_cons in Hin' as [Heq|?]; [|by do 2 right].
      rewrite Heq.
      apply elem_of_cons in Hin as [Hm'|Hm'%list_elem_of_singleton];
        rewrite Hm'; [left|right; left].
    + intros v [->|[->|Hv]%elem_of_cons]%elem_of_cons.
      * eapply float_leb_trans; [exact Hmx|]. apply Hle. left.
      * eapply float_leb_trans; [exact Hmy|]. apply Hle. left.
      * apply Hle. by right.
Qed.

Lemma series_min_max col :
  (dropna col = [] → series_min col = NaN ∧ series_max col = NaN) ∧
  (dropna col ≠ [] →
     series_min col ∈ dropna col ∧ series_max col ∈ dropna col ∧
     ∀ p, p ∈ dropna col →
          float_leb (series_min col) p = true ∧
          float_leb p (series_max col) = true).
Proof.
  unfold series_min, series_max, reduce.
  assert (Forall (fun v => v ≠ NaN) (dropna col)) as Hall.
  { apply Forall_forall. by intros v [_ ?]%elem_of_dropna. }
  destruct (dropna col) as [|x xs]; [done|]. split; [done|]. intros _.
  apply Forall_cons in Hall as [Hx Hxs].
  destruct (fold_float_min xs x Hx Hxs) as [? ?].
  destruct (fold_float_max xs x Hx Hxs) as [? ?]. auto.
Qed.

Lemma get_summary_stats_cons r df :
  get_summary_stats (r :: df) =
  {[ "total_books" := Count (length (r :: df));
     "avg_price" := Number (series_mean (price_numeric <$> r :: df));
     "min_price" := Number (series_min (price_numeric <$> r :: df));
     "max_price" := Number (series_max (price_numeric <$> r :: df));
     "avg_rating" :=
       Number (series_mean
                 (rating_as_float <$> (rating_numeric <$> r :: df))) ]}.
Proof. done. Qed.

(** X6.  On a frame that is not empty [get_summary_stats] returns the five
    figures total_books, avg_price, min_price, max_price and avg_rating;
    total_books is the number of rows.  min_price and max_price are prices
    of rows of the frame and bound every price that is not NaN from below
    and from above; when no row has a price they are NaN, and nothing is
    raised. *)
Theorem get_summary_stats_min_max (df : DataFrame) :
  df ≠ [] →
  let stats := get_summary_stats df in
  let prices := dropna (price_numeric <$> df) in
  dom stats =
    ({[ "total_books"; "avg_price"; "min_price"; "max_price"; "avg_rating" ]}
       : gset string) ∧
  stats !! "total_books" = Some (Count (length df)) ∧
  ∃ lo hi,
    stats !! "min_price" = Some (Number lo) ∧
    stats !! "max_price" = Some (Number hi) ∧
    (prices = [] → lo = NaN ∧ hi = NaN) ∧
    (prices ≠ [] →
       lo ∈ prices ∧ hi ∈ prices ∧
       ∀ p, p ∈ prices → float_leb lo p = true ∧ float_leb p hi = true).
Proof.
  intros Hdf stats prices. destruct df as [|r df]; [done|].
  unfold stats. rewrite get_summary_stats_cons. split_and!.
  - rewrite !dom_insert_L, dom_singleton_L. set_solver.
  - done.
  - exists (series_min (price_numeric <$> r :: df)),
           (series_max (price_numeric <$> r :: df)).
    split; [done|]. split; [done|]. apply series_min_max.
Qed.

Lemma get_summary_stats_min_max_witness :
  get_summary_stats frame_ABC !! "total_books" = Some (Count 3).
Proof.
  refine (proj1 (proj2 (get_summary_stats_min_max frame_ABC _))).
  discriminate.
Defined.

Lemma get_best_value_book_head min_rating n df :
  get_best_value_book min_rating n df =
  head n (sort_values (filter (fun r => rating_ge min_rating r = true) df)).
Proof.
  unfold get_best_value_book, head. destruct df; [|done].
  destruct (0 <=? n); cbn; first [done | by destruct (Z.to_nat n)].
Qed.

(** X7.  With a negative [n], [get_best_value_book] does not fail: it
    leaves out the last [-n] of the qualifying rows in ascending order of
    price, that is the [-n] most expensive ones, and returns the others in
    that order; nothing is returned when there are at most [-n] qualifying
    rows. *)
Theorem get_best_value_book_negative_n
    (df : DataFrame) (min_rating n : Z) :
  n < 0 →
  let qualifying := filter (fun r => rating_ge min_rating r = true) df in
  let best := get_best_value_book min_rating n df in
  length best = (length qualifying - Z.to_nat (- n))%nat ∧
  StronglySorted cheaper_or_equal best ∧
  ∃ dropped,
    best ++ dropped ≡ₚ qualifying ∧
    length dropped = min (Z.to_nat (- n)) (length qualifying) ∧
    ∀ a b, a ∈ best → b ∈ dropped → cheaper_or_equal a b.
Proof.
  intros Hn qualifying best.
  assert (length (sort_values qualifying) = length qualifying) as Hlen.
  { unfold sort_values. by rewrite stable_sort_perm. }
  set (k := (length qualifying - Z.to_nat (- n))%nat).
  assert (best = take k (sort_values qualifying)) as Hbest.
  { unfold best. rewrite get_best_value_book_head. unfold head.
    rewrite (proj2 (Z.leb_gt 0 n)) by done. fold qualifying.
    by rewrite Hlen. }
  assert (sort_values qualifying ≡ₚ qualifying) as Hperm
    by apply stable_sort_perm.
  pose proof (sort_values_sorted qualifying) as Hsorted.
  rewrite <- (take_drop k (sort_values qualifying)) in Hperm, Hsorted.
  rewrite <- Hbest in Hperm, Hsorted.
  apply StronglySorted_app in Hsorted as (Hcross & Hsorted & _).
  split_and!.
  - rewrite Hbest, length_take, Hlen. lia.
  - done.
  - exists (drop k (sort_values qualifying)). split_and!; [done| |done].
    rewrite length_drop, Hlen. lia.
Qed.

Lemma get_best_value_book_negative_n_witness :
  -1 < 0 ∧
  length (get_best_value_book 4 (-1) frame_ABC) =
    (length (filter (fun r => rating_ge 4 r = true) frame_ABC)
     - Z.to_nat (- -1))%nat.
Proof.
  assert (-1 < 0) as H by lia.
  split; [exact H|].
  exact (proj1 (get_best_value_book_negative_n frame_ABC 4 (-1) H)).
Defined.

(** ** The table under [insert_books] *)

Lemma ids_numbered last rows :
  id <$> numbered last rows = seqZ (last + 1) (Z.of_nat (length rows)).
Proof.
  revert last. induction rows as [|row rows IH]; intros last; [done|].
  cbn [numbered fmap list_fmap length]. rewrite IH.
  rewrite (seqZ_cons (last + 1)) by lia. cbn [id stored].
  do 2 f_equal; lia.
Qed.

Lemma accepted_rows existing df row :
  row ∈ accepted existing df ↔
  row ∈ df ∧ (title (raw row) ∉ existing) ∧ insertable row = true.
Proof. unfold accepted. rewrite list_elem_of_filter. tauto. Qed.

(** X8.  [insert_books] only appends: the rows the table had stay as they
    are, in front.  The rows added are, in batch order, the rows of the
    frame whose title was not in the table before the call and that have a
    price and a rating; they receive the ids that follow the counter, one
    after the other, and the number reported is their number.  A row with a
    NaN price or a missing rating is never stored. *)
Theorem insert_books_appends (df : DataFrame) (db : BookDatabase) :
  let result := insert_books df db in
  ∃ new : DataFrame,
    new = filter (fun row => (title (raw row) ∉ titles db) ∧
                             insertable row = true) df ∧
    table result.1 = table db ++ numbered (sequence db) new ∧
    id <$> numbered (sequence db) new =
      seqZ (sequence db + 1) (Z.of_nat (length new)) ∧
    sequence result.1 = sequence db + Z.of_nat (length new) ∧
    inserted result.2 = length new ∧
    (length new <= length df)%nat ∧
    (∀ row, row ∈ df → price_numeric row = NaN ∨ rating_numeric row = None →
            row ∉ new).
Proof.
  cbn zeta. rewrite insert_books_table. cbn [fst snd table sequence].
  exists (accepted (list_to_set (titles db)) df). split_and!.
  - unfold accepted. apply list_filter_iff. intros row.
    by rewrite elem_of_list_to_set.
  - done.
  - apply ids_numbered.
  - done.
  - by destruct df.
  - apply length_filter.
  - intros row _ Hmissing (_ & _ & Hins)%accepted_rows.
    unfold insertable in Hins. apply andb_true_iff in Hins as [Hp Hr].
    destruct Hmissing as [Hnan|Hnone].
    + by rewrite Hnan in Hp.
    + rewrite Hnone in Hr. by apply bool_decide_eq_true, is_Some_None in Hr.
Qed.

Lemma insert_books_appends_witness :
  row_B ∈ frame_ABC ∧
  table store_ABC = [] ++ numbered 0 frame_ABC.
Proof.
  split; [right; left|].
  destruct (insert_books_appends frame_ABC new_database)
    as (new & Hnew & Htable & _).
  rewrite Hnew in Htable. exact Htable.
Defined.

(** The ids of a reachable table are 1, 2, ... up to the counter. *)
Lemma reachable_ids db :
  reachable db →
  0 <= sequence db ∧ id <$> table db = seqZ 1 (sequence db).
Proof.
  induction 1 as [|db df _ [Hseq IH]]; [done|].
  rewrite insert_books_table. cbn [fst table sequence].
  split; [lia|]. rewrite fmap_app, IH, ids_numbered.
  rewrite (Z.add_comm (sequence db) 1), <- seqZ_app by lia. done.
Qed.

Lemma reachable_length db :
  reachable db → Z.of_nat (length (table db)) = sequence db.
Proof.
  intros [Hseq Hids]%reachable_ids.
  rewrite <- (length_fmap id), Hids, length_seqZ. lia.
Qed.

Lemma get_book_by_id_index db i :
  reachable db →
  get_book_by_id i db =
  if decide (1 <= i <= sequence db) then table db !! Z.to_nat (i - 1)
  else None.
Proof.
  intros Hdb. destruct (reachable_ids db Hdb) as [Hseq Hids].
  assert (∀ k y, table db !! k = Some y → id y = 1 + Z.of_nat k ∧
                                          Z.of_nat k < sequence db) as Hat.
  { intros k y Hk. apply (f_equal (fmap id)) in Hk.
    rewrite <- list_lookup_fmap, Hids in Hk. cbn in Hk.
    by apply lookup_seqZ in Hk. }
  unfold get_book_by_id. destruct (decide (1 <= i <= sequence db)) as [Hi|Hi].
  - destruct (lookup_lt_is_Some_2 (table db) (Z.to_nat (i - 1))) as [r Hr].
    { apply Nat2Z.inj_lt. rewrite reachable_length by done. lia. }
    rewrite Hr.
    assert (list_find (fun r => id r = i) (table db) =
            Some (Z.to_nat (i - 1), r)) as ->; [|done].
    apply list_find_Some. split_and!; [done| |].
    + apply Hat in Hr as [-> _]. lia.
    + intros k y Hk Hlt. apply Hat in Hk as [-> _]. lia.
  - assert (list_find (fun r => id r = i) (table db) = None) as ->; [|done].
    apply list_find_None, Forall_forall. intros y [k Hk]%list_elem_of_lookup.
    apply Hat in Hk as [-> ?]. lia.
Qed.

Lemma get_book_by_id_Some db i r :
  reachable db →
  get_book_by_id i db = Some r ↔ r ∈ table db ∧ id r = i.
Proof.
  intros Hdb. destruct (reachable_ids db Hdb) as [Hseq Hids].
  pose proof (reachable_length db Hdb) as Hlen.
  assert (∀ k y, table db !! k = Some y → id y = 1 + Z.of_nat k) as Hat.
  { intros k y Hk. apply (f_equal (fmap id)) in Hk.
    rewrite <- list_lookup_fmap, Hids in Hk. cbn in Hk.
    by apply lookup_seqZ in Hk as [-> _]. }
  rewrite get_book_by_id_index by done. split.
  - destruct (decide _) as [Hi|]; [|done]. intros Hr. split.
    + by eapply list_elem_of_lookup_2.
    + apply Hat in Hr. lia.
  - intros [[k Hk]%list_elem_of_lookup <-]. pose proof (Hat k r Hk) as Hid.
    pose proof (lookup_lt_Some _ _ _ Hk) as Hlt.
    rewrite decide_True by lia. by replace (Z.to_nat (id r - 1)) with k by lia.
Qed.



(** X10.  A stored row keeps its id and its contents through every later
    batch: what [get_book_by_id] found before a call of [insert_books] it
    finds after it. *)
Theorem insert_books_keeps_stored_rows
    (df : DataFrame) (db : BookDatabase) (book_id : Z) (r : StoredRecord) :
  reachable db →
  get_book_by_id book_id db = Some r →
  get_book_by_id book_id (insert_books df db).1 = Some r.
Proof.
  intros Hdb Hr.
  apply get_book_by_id_Some in Hr as [Hin Hid]; [|done].
  apply get_book_by_id_Some; [by apply reach_insert|]. split; [|done].
  rewrite insert_books_table. cbn [fst table]. apply elem_of_app. by left.
Qed.

Lemma insert_books_keeps_stored_rows_witness :
  get_book_by_id 2 (insert_books [row_A_again] store_ABC).1 =
    Some (stored 2 row_B).
Proof.
  apply insert_books_keeps_stored_rows.
  - apply reach_insert, reach_new.
  - reflexivity.
Defined.

(** X11.  When the titles of the table are pairwise distinct and so are
    the titles of the batch, the titles are pairwise distinct after
    [insert_books]: a title the table has is never inserted again. *)
Theorem insert_books_keeps_titles_distinct (df : DataFrame) (db : BookDatabase) :
  NoDup (titles db) →
  NoDup ((fun row => title (raw row)) <$> df) →
  NoDup (titles (insert_books df db).1) ∧
  (∀ t, t ∈ titles db →
        filter (fun s => s_title s = t) (table (insert_books df db).1) =
        filter (fun s => s_title s = t) (table db)).
Proof.
  intros Hdb Hdf. split.
  - rewrite titles_insert_books. apply NoDup_app. split_and!; [done| |].
    + intros t Ht (row & -> & Hrow)%list_elem_of_fmap.
      apply accepted_rows in Hrow as (_ & Hnew & _).
      by rewrite elem_of_list_to_set in Hnew.
    + eapply sublist_NoDup; [exact Hdf|].
      apply fmap_sublist, sublist_filter.
  - intros t Hold. rewrite insert_books_table. cbn [fst table].
    rewrite filter_app.
    rewrite (filter_none _ (numbered _ _)); [by rewrite app_nil_r|].
    intros s (i & row' & Hrow' & ->)%numbered_elem. cbn.
    apply accepted_rows in Hrow' as (_ & Hnew & _).
    rewrite elem_of_list_to_set in Hnew. congruence.
Qed.

Lemma insert_books_keeps_titles_distinct_witness :
  NoDup (titles store_ABC) ∧
  NoDup (titles (insert_books [row_A_again] store_ABC).1).
Proof.
  assert (NoDup (titles store_ABC)) as H1.
  { vm_compute. repeat (constructor; [vm_compute; intros H;
      repeat (apply elem_of_cons in H as [H|H]; [discriminate H|]);
      by apply elem_of_nil in H|]). constructor. }
  assert (NoDup ((fun row => title (raw row)) <$> [row_A_again])) as H2.
  { repeat constructor. by intros ?%elem_of_nil. }
  split; [exact H1|].
  exact (proj1 (insert_books_keeps_titles_distinct [row_A_again] store_ABC H1 H2)).
Defined.

Lemma filter_ext_elem {A} (P Q : A → Prop)
    `{!∀ x, Decision (P x)} `{!∀ x, Decision (Q x)} (l : list A) :
  (∀ x, x ∈ l → P x ↔ Q x) → filter P l = filter Q l.
Proof.
  induction l as [|x l IH]; intros Hl; [done|]. rewrite !filter_cons.
  rewrite IH by (intros y Hy; apply Hl; by right).
  destruct (decide (P x)) as [HP|HP], (decide (Q x)) as [HQ|HQ]; try done.
  - destruct HQ. apply Hl; [left|done].
  - destruct HP. apply Hl; [left|done].
Qed.

Lemma numbered_app last rows rows' :
  numbered last (rows ++ rows') =
  numbered last rows ++ numbered (last + Z.of_nat (length rows)) rows'.
Proof.
  revert last. induction rows as [|row rows IH]; intros last.
  - cbn. by rewrite Z.add_0_r.
  - cbn [app numbered length]. rewrite IH. do 3 f_equal. lia.
Qed.

Lemma accepted_app existing df1 df2 :
  accepted existing (df1 ++ df2) =
  accepted existing df1 ++ accepted existing df2.
Proof. apply filter_app. Qed.

Lemma inserted_report df db :
  inserted (insert_books df db).2 =
  length (accepted (list_to_set (titles db)) df).
Proof. rewrite insert_books_table. by destruct df. Qed.

(** X12.  Splitting a batch in two changes nothing as long as no title
    occurs in both parts: inserting the first part and then the second
    leaves the same table, with the same ids, as inserting the whole batch
    at once, and the numbers reported add up. *)
Theorem insert_books_in_two_batches (df1 df2 : DataFrame) (db : BookDatabase) :
  (∀ r1 r2, r1 ∈ df1 → r2 ∈ df2 → title (raw r1) ≠ title (raw r2)) →
  (insert_books df2 (insert_books df1 db).1).1 =
    (insert_books (df1 ++ df2) db).1 ∧
  (inserted (insert_books df1 db).2 +
   inserted (insert_books df2 (insert_books df1 db).1).2)%nat =
    inserted (insert_books (df1 ++ df2) db).2.
Proof.
  intros Hdisjoint.
  assert (accepted (list_to_set (titles (insert_books df1 db).1)) df2 =
          accepted (list_to_set (titles db)) df2) as Hsame.
  { apply filter_ext_elem. intros row Hrow.
    rewrite !elem_of_list_to_set, titles_insert_books, elem_of_app.
    split; intros [Hnew Hins]; (split; [|done]).
    - intros Hold. apply Hnew. by left.
    - intros [Hold|(row1 & Heq & Hrow1)%list_elem_of_fmap]; [done|].
      apply accepted_rows in Hrow1 as (Hrow1 & _).
      by apply (Hdisjoint row1 row). }
  split.
  - rewrite (insert_books_table df2), Hsame, (insert_books_table (df1 ++ df2)).
    rewrite insert_books_table. cbn [fst table sequence].
    rewrite accepted_app, numbered_app, length_app, <- app_assoc.
    f_equal. lia.
  - rewrite !inserted_report, Hsame.
    by rewrite accepted_app, length_app.
Qed.

Lemma insert_books_in_two_batches_witness :
  (insert_books [row_C] (insert_books [row_A; row_B] new_database).1).1 =
  (insert_books ([row_A; row_B] ++ [row_C]) new_database).1.
Proof.
  refine (proj1 (insert_books_in_two_batches [row_A; row_B] [row_C]
                   new_database _)).
  intros r1 r2 H1 H2.
  apply list_elem_of_singleton in H2. rewrite H2.
  apply elem_of_cons in H1 as [->|H1]; [discriminate|].
  apply list_elem_of_singleton in H1. rewrite H1. discriminate.
Defined.

(** ** The /scrape and /raw routes *)

Lemma scrape_one_page site :
  (scrape_multiple_pages site 1 new_scraper).1 = page_records site 1.
Proof.
  unfold scrape_multiple_pages.
  change (Z.to_nat 1) with 1%nat. cbn [pages_loop fst].
  rewrite scrape_books_from_page_eq.
  by destruct (bool_decide (page_records site 1 ≠ [])).
Qed.

Lemma scrape_books_eq site st :
  scrape_books site st =
  match BookDataAnalyzer py_float (page_records site 1) with
  | inl e => inl e
  | inr df =>
      inr ({| db := (insert_books df (db st)).1; analyzer := Some df |},
           length (page_records site 1))
  end.
Proof.
  unfold scrape_books. rewrite <- scrape_one_page.
  by destruct (scrape_multiple_pages site 1 new_scraper).
Qed.

(** X13.  Running the /scrape route again on an unchanged site changes
    nothing: the second run inserts no row and ends in the state the first
    run left, flashing the same number of books. *)
Theorem scrape_books_again_changes_nothing
    (site : website) (st st1 : state) (n : nat) :
  scrape_books site st = inr (st1, n) →
  scrape_books site st1 = inr (st1, n).
Proof.
  rewrite !scrape_books_eq.
  destruct (BookDataAnalyzer py_float (page_records site 1)) as [e|df]; [done|].
  intros [= <- <-]. cbn [db].
  rewrite (insert_books_nothing_new df (insert_books df (db st)).1)
    by apply accepted_again.
  done.
Qed.

Lemma scrape_books_again_changes_nothing_witness :
  ∃ st1, scrape_books site_three_pages start = inr (st1, 2%nat) ∧
         scrape_books site_three_pages st1 = inr (st1, 2%nat).
Proof.
  eexists. split; [vm_compute; reflexivity|].
  apply (scrape_books_again_changes_nothing site_three_pages start).
  vm_compute. reflexivity.
Defined.



Lemma filter_all {A} (P : A → Prop) `{!∀ x, Decision (P x)} (l : list A) :
  (∀ x, x ∈ l → P x) → filter P l = l.
Proof.
  induction l as [|x l IH]; intros Hl; [done|].
  rewrite filter_cons, decide_True by (apply Hl; left).
  rewrite IH; [done|]. intros y Hy. apply Hl. by right.
Qed.

(** X15.  The price shown by the /raw route is the scraped price text
    without any "Â": every other code point is kept, in order, so that a
    text without "Â" is shown as it is and "Â£51.77" is shown as "£51.77".
    A record without a price, or with an empty one, is shown with the empty
    text. *)
Theorem price_clean_removes_a_circumflex (b_price : option pystr) :
  price_clean b_price =
    filter (fun c => c ≠ a_circumflex) (default [] b_price) ∧
  (a_circumflex ∉ price_clean b_price) ∧
  (∀ p, b_price = Some p → a_circumflex ∉ p → price_clean b_price = p) ∧
  price_clean None = [] ∧
  price_clean (Some []) = [] ∧
  price_clean (Some text_mojibake) = text_pound.
Proof.
  assert (price_clean b_price =
          filter (fun c => c ≠ a_circumflex) (default [] b_price)) as Heq.
  { destruct b_price as [[|c p]|]; [done| |done].
    unfold price_clean, replace. apply replace_scan_single. }
  split_and!; [done| | |done|done|by vm_compute].
  - rewrite Heq. by intros [? _]%list_elem_of_filter.
  - intros p -> Hp. rewrite Heq. simpl. apply filter_all.
    intros c Hc ->. done.
Qed.

Lemma price_clean_removes_a_circumflex_witness :
  price_clean (Some text_pound) = text_pound.
Proof.
  refine (proj1 (proj2 (proj2 (price_clean_removes_a_circumflex
            (Some text_pound)))) text_pound _ _).
  - reflexivity.
  - vm_compute. intros H.
    repeat (apply elem_of_cons in H as [H|H]; [discriminate H|]).
    by apply elem_of_nil in H.
Defined.

(** ** Narrowing a search *)

Section StableSortFilter.
Context {A : Type} (leb : A → A → bool) (P : A → Prop).
Context `{!∀ x, Decision (P x)}.

End StableSortFilter.

Section StableSortFilterAll.
Context {A : Type} (leb : A → A → bool) (D P : A → Prop).
Context `{!∀ x, Decision (P x)}.
Hypothesis leb_total : ∀ x y, D x → D y → leb x y = false → leb y x = true.
Hypothesis leb_trans :
  ∀ x y z, leb x y = true → leb y z = true → leb x z = true.

End StableSortFilterAll.




(** ** The average rating *)

Lemma inject_Z_le a b : a <= b → (inject_Z a <= inject_Z b)%Q.
Proof. intros H. by rewrite <- Zle_Qle. Qed.

Lemma inject_Z_of_nat_S n :
  (inject_Z (Z.of_nat (S n)) == inject_Z (Z.of_nat n) + 1)%Q.
Proof. rewrite Nat2Z.inj_succ, <- Z.add_1_r, inject_Z_plus. reflexivity. Qed.

(** The sum of a run of ratings between 1 and 5, folded from the left. *)
Lemma fold_float_add_ratings xs : ∀ a,
  Forall (fun v => ∃ q, v = Fin q ∧ (1 <= q)%Q ∧ (q <= 5)%Q) xs →
  ∃ s, fold_left float_add xs (Fin a) = Fin s ∧
       (a + inject_Z (Z.of_nat (length xs)) <= s)%Q ∧
       (s <= a + 5 * inject_Z (Z.of_nat (length xs)))%Q.
Proof.
  induction xs as [|x xs IH]; intros a Hxs.
  - exists a. split; [done|].
    change (inject_Z (Z.of_nat (length (@nil pyfloat)))) with 0%Q. split; lra.
  - apply Forall_cons in Hxs as [(q & -> & Hq1 & Hq5) Hxs].
    destruct (IH (Qred (a + q)) Hxs) as (s & Hs & Hlo & Hhi).
    exists s. split; [exact Hs|].
    rewrite Qred_correct in Hlo, Hhi.
    cbn [length]. rewrite inject_Z_of_nat_S. split; lra.
Qed.

Lemma rating_column_values df :
  Forall (fun r => ∀ k, rating_numeric r = Some k → 1 <= k <= 5) df →
  Forall (fun v => ∃ q, v = Fin q ∧ (1 <= q)%Q ∧ (q <= 5)%Q)
         (dropna (rating_as_float <$> (rating_numeric <$> df))).
Proof.
  intros Hdf. apply Forall_forall. intros v [Hv Hnan]%elem_of_dropna.
  apply list_elem_of_fmap in Hv as (o & -> & Ho).
  apply list_elem_of_fmap in Ho as (r & -> & Hr).
  rewrite Forall_forall in Hdf. specialize (Hdf r Hr).
  destruct (rating_numeric r) as [k|]; [|done].
  destruct (Hdf k eq_refl) as [Hk1 Hk5].
  exists (inject_Z k). split; [done|].
  split; [exact (inject_Z_le 1 k Hk1)|exact (inject_Z_le k 5 Hk5)].
Qed.

Lemma series_mean_ratings df :
  Forall (fun r => ∀ k, rating_numeric r = Some k → 1 <= k <= 5) df →
  let col := rating_as_float <$> (rating_numeric <$> df) in
  (dropna col = [] → series_mean col = NaN) ∧
  (dropna col ≠ [] →
     ∃ q, series_mean col = Fin q ∧ (1 <= q)%Q ∧ (q <= 5)%Q).
Proof.
  intros Hdf%rating_column_values col. fold col in Hdf.
  unfold series_mean, reduce.
  destruct (dropna col) as [|x xs]; [done|]. split; [done|]. intros _.
  apply Forall_cons in Hdf as [(q0 & -> & Hq1 & Hq5) Hxs].
  destruct (fold_float_add_ratings xs q0 Hxs) as (s & -> & Hlo & Hhi).
  cbn [float_div_count length]. eexists. split; [done|].
  rewrite Qred_correct.
  assert (0 < inject_Z (Z.of_nat (S (length xs))))%Q as Hpos.
  { rewrite inject_Z_of_nat_S.
    assert (0 <= inject_Z (Z.of_nat (length xs)))%Q
      by (apply (inject_Z_le 0); lia). lra. }
  split.
  - apply Qle_shift_div_l; [done|]. rewrite inject_Z_of_nat_S. lra.
  - apply Qle_shift_div_r; [done|]. rewrite inject_Z_of_nat_S. lra.
Qed.

(** X17.  For a frame that [_preprocess] built and that is not empty, the
    avg_rating figure of [get_summary_stats] lies between 1 and 5 as soon
    as one row has a rating; when no row has one it is NaN, and nothing is
    raised. *)
Theorem avg_rating_within_scale
    (to_float : pystr → option pyfloat) (books : list RawBook)
    (df : DataFrame) :
  _preprocess to_float books = inr df →
  df ≠ [] →
  let stats := get_summary_stats df in
  (Forall (fun r => rating_numeric r = None) df →
     stats !! "avg_rating" = Some (Number NaN)) ∧
  (Exists (fun r => rating_numeric r ≠ None) df →
     ∃ q, stats !! "avg_rating" = Some (Number (Fin q)) ∧
          (1 <= q)%Q ∧ (q <= 5)%Q).
Proof.
  intros Hpre Hne stats.
  assert (Forall (fun r => ∀ k, rating_numeric r = Some k → 1 <= k <= 5) df)
    as Hscale.
  { apply preprocess_rows in Hpre. eapply Forall_impl; [exact Hpre|].
    intros r [_ Hr] k Hk. rewrite Hr in Hk. apply rm_lookup in Hk.
    unfold vocabulary in Hk. rewrite !elem_of_cons, elem_of_nil in Hk.
    decompose [or] Hk; simplify_eq; lia. }
  destruct (series_mean_ratings df Hscale) as [Hnone Hsome].
  destruct df as [|r df]; [done|].
  unfold stats. rewrite get_summary_stats_cons.
  set (col := rating_as_float <$> (rating_numeric <$> r :: df)) in *.
  assert (∀ x, (({[ "total_books" := Count (length (r :: df));
                    "avg_price" := Number (series_mean (price_numeric <$> r :: df));
                    "min_price" := Number (series_min (price_numeric <$> r :: df));
                    "max_price" := Number (series_max (price_numeric <$> r :: df));
                    "avg_rating" := x ]} : gmap string stat)
                 !! "avg_rating") = Some x) as Hlookup by done.
  rewrite Hlookup. split.
  - intros Hall. rewrite Hnone; [done|]. apply filter_none.
    intros v (o & -> & (r' & -> & Hr')%list_elem_of_fmap)%list_elem_of_fmap.
    rewrite Forall_forall in Hall. by rewrite (Hall r' Hr').
  - intros (r' & Hr' & Hrating)%Exists_exists.
    destruct Hsome as (q & -> & Hq); [|by exists q].
    intros Hnil. destruct (rating_numeric r') as [k|] eqn:Hk; [|done].
    assert (Fin (inject_Z k) ∈ dropna col) as Hin.
    { apply elem_of_dropna. split; [|done].
      apply list_elem_of_fmap. exists (Some k). split; [done|].
      apply list_elem_of_fmap. by exists r'. }
    rewrite Hnil in Hin. by apply elem_of_nil in Hin.
Qed.

Lemma avg_rating_within_scale_witness :
  ∃ q, get_summary_stats frame_ABC !! "avg_rating" = Some (Number (Fin q)) ∧
       (1 <= q)%Q ∧ (q <= 5)%Q.
Proof.
  refine (proj2 (avg_rating_within_scale py_float
                   [book "A" "15" "Five"; book "B" "10" "Three";
                    book "C" "18" "Four"] frame_ABC _ _) _).
  - vm_compute. reflexivity.
  - discriminate.
  - left. discriminate.
Defined.

(** ** Bounds of a search, and longer runs *)



(** X19.  Asking a new scraper for more pages never loses records: the
    result for [num_pages] pages is the beginning of the result for any
    larger number of pages on the same site. *)
Theorem scrape_multiple_pages_more_pages
    (site : website) (num_pages num_pages' : Z) :
  num_pages <= num_pages' →
  ∃ more,
    (scrape_multiple_pages site num_pages' new_scraper).1 =
    (scrape_multiple_pages site num_pages new_scraper).1 ++ more.
Proof.
  intros Hle. unfold scrape_multiple_pages. cbn [fst].
  destruct (pages_loop_stop site (Z.to_nat num_pages') 1)
    as (k' & Hle' & Hgood & Hstop).
  rewrite (pages_loop_eq site k' (Z.to_nat num_pages')) by done.
  rewrite (pages_loop_eq site (min k' (Z.to_nat num_pages))
             (Z.to_nat num_pages)).
  - unfold new_scraper. cbn [books app].
    set (k := min k' (Z.to_nat num_pages)).
    replace (Z.of_nat k') with (Z.of_nat k + (Z.of_nat k' - Z.of_nat k))
      by lia.
    rewrite seqZ_app, fmap_app, concat_app by lia. by eexists.
  - lia.
  - intros j Hj. apply Hgood. lia.
  - intros Hk. replace (min k' (Z.to_nat num_pages)) with k' by lia.
    apply Hstop. lia.
Qed.

Lemma scrape_multiple_pages_more_pages_witness :
  1 <= 2 ∧
  ∃ more,
    (scrape_multiple_pages site_three_pages 2 new_scraper).1 =
    (scrape_multiple_pages site_three_pages 1 new_scraper).1 ++ more.
Proof.
  assert (1 <= 2) as H by lia.
  split; [exact H|].
  exact (scrape_multiple_pages_more_pages site_three_pages 1 2 H).
Defined.
